(** * python-wechaty: the plugin manager of [wechaty/plugin.py] and the
    mention-text extraction exercised by [tests/user_message_test.py].

    The Python code is embedded shallowly.  Objects that the code mutates
    (the options object of a plugin, the two dictionaries of the manager,
    the module logger) live in an explicit [world]; every method is a
    computation in a state-and-exception monad over that world, so that
    what a method has already written stays written when it raises. *)

From Stdlib Require Import Ascii String.
From stdpp Require Import gmap strings list fin_maps pretty.

Local Open Scope string_scope.
Local Open Scope list_scope.
Local Open Scope nat_scope.

(** ** Python values, classes and exceptions *)

(** The classes [emit_events] tests with [isinstance].  [OtherClass]
    stands for any class that is none of them (payload classes, user
    classes); subclassing between the listed classes does not occur. *)
Inductive pyclass :=
  | Message
  | Friendship
  | Contact
  | RoomInvitation
  | Room
  | Datetime
  | OtherClass (cls : string).

Global Instance pyclass_eq_dec : EqDecision pyclass.
Proof. solve_decision. Defined.

#[local] Set Warnings "-register-all,-clear-no-such-hyp".

(** A run-time value: an instance of a class (with its identity), a [str],
    a [list] or [None]. *)
Inductive value :=
  | Instance (cls : pyclass) (ident : nat)
  | Str (s : string)
  | PyList (items : list value)
  | PyNone.

Inductive builtin_or_class :=
  | Class (c : pyclass)
  | BuiltinStr
  | BuiltinList.

(** [isinstance(v, t)] *)
Definition isinstance (v : value) (t : builtin_or_class) : bool :=
  match v, t with
  | Instance c _, Class c' => bool_decide (c = c')
  | Str _, BuiltinStr => true
  | PyList _, BuiltinList => true
  | _, _ => false
  end.

(** The text of a [WechatyPluginError]; the f-strings of the source are
    kept as a constructor per message with the interpolated values as
    arguments. *)
Inductive error_text :=
  | cant_load_plugin (plugin : string)
      (* can't load plugin {plugin} *)
  | plugin_not_exist (name : string)
      (* plugin {name} not exist *)
  | plugins_not_exist (name : string)
      (* plugins <{name}> not exist *)
  | args_invalid (event_name : string) (args : list value)
      (* the plugin args of {event_name} ... is invalid, the source args: <{args}> ... *).

Inductive exn :=
  | WechatyPluginError (text : error_text)
  | AssertionError
  | IndexError
  | KeyError (key : string)
  | OtherException (what : string).

Inductive result (A : Type) :=
  | Return (a : A)
  | Raise (e : exn).
Arguments Return {A} a.
Arguments Raise {A} e.

(** ** Plugins *)

(** [@dataclass WechatyPluginOptions]: [name] and [metadata], both
    [None] by default. *)
Record WechatyPluginOptions := {
  opt_name : option string;
  opt_metadata : option (list (string * string));
}.

Global Instance WechatyPluginOptions_inhabited : Inhabited WechatyPluginOptions :=
  populate {| opt_name := None; opt_metadata := None |}.

(** [class PluginStatus(Enum)] *)
Inductive PluginStatus :=
  | Running
  | Stopped.

Global Instance PluginStatus_eq_dec : EqDecision PluginStatus.
Proof. solve_decision. Defined.

(** A plugin instance: its identity, [__class__.__name__], and the address
    of the options object [self.options] refers to.  Two plugins may refer
    to one options object. *)
Record WechatyPlugin := {
  ident : nat;
  class_name : string;
  options : nat;
}.

Global Instance WechatyPlugin_eq_dec : EqDecision WechatyPlugin.
Proof. solve_decision. Defined.

(** The calls [emit_events] can make on a plugin, with their positional
    arguments, and the handlers of [WechatyPlugin] it never calls. *)
Inductive handler_call :=
  | on_error (payload : value)
  | on_heartbeat (payload : value)
  | on_friendship (friendship : value)
  | on_login (contact : value)
  | on_logout (contact : value)
  | on_message (msg : value)
  | on_ready (payload : value)
  | on_room_invite (room_invitation : value)
  | on_room_join (room invitees inviter date : value)
  | on_room_leave (room leavers remover date : value)
  | on_room_topic (room new_topic old_topic changer date : value)
  | on_scan (qr_code status data : value).

(** ** The world *)

Inductive log_level := INFO | WARNING.

(** An [OrderedDict] with [str] keys: the items in insertion order. *)
Abbreviation OrderedDict V := (list (string * V)).

Record world := {
  (** the options objects, by address; an address never written holds a
      freshly constructed [WechatyPluginOptions()] *)
  heap : gmap nat WechatyPluginOptions;
  (** [self._plugins] *)
  _plugins : OrderedDict WechatyPlugin;
  (** [self._plugin_status] *)
  _plugin_status : gmap string PluginStatus;
  (** the records written to [log], oldest first *)
  log : list (log_level * string);
  (** the handler calls made on plugins, oldest first *)
  invoked : list (WechatyPlugin * handler_call);
}.

Definition set_heap (h : gmap nat WechatyPluginOptions) (w : world) : world :=
  {| heap := h; _plugins := _plugins w; _plugin_status := _plugin_status w;
     log := log w; invoked := invoked w |}.
Definition set_plugins (d : OrderedDict WechatyPlugin) (w : world) : world :=
  {| heap := heap w; _plugins := d; _plugin_status := _plugin_status w;
     log := log w; invoked := invoked w |}.
Definition set_plugin_status (d : gmap string PluginStatus) (w : world) : world :=
  {| heap := heap w; _plugins := _plugins w; _plugin_status := d;
     log := log w; invoked := invoked w |}.
Definition add_log (r : log_level * string) (w : world) : world :=
  {| heap := heap w; _plugins := _plugins w; _plugin_status := _plugin_status w;
     log := log w ++ [r]; invoked := invoked w |}.
Definition add_invoked (c : WechatyPlugin * handler_call) (w : world) : world :=
  {| heap := heap w; _plugins := _plugins w; _plugin_status := _plugin_status w;
     log := log w; invoked := invoked w ++ [c] |}.

(** [WechatyPluginManager.__init__]: both dictionaries empty. *)
Definition init (h : gmap nat WechatyPluginOptions) : world :=
  {| heap := h; _plugins := []; _plugin_status := ∅; log := []; invoked := [] |}.

(** ** The monad of methods *)

Definition M (A : Type) : Type := world → result A * world.

Definition ret {A} (a : A) : M A := λ w, (Return a, w).
Definition raise {A} (e : exn) : M A := λ w, (Raise e, w).
Definition bind {A B} (m : M A) (k : A → M B) : M B :=
  λ w, match m w with
       | (Return a, w') => k a w'
       | (Raise e, w') => (Raise e, w')
       end.
Definition gets {A} (f : world → A) : M A := λ w, (Return (f w), w).
Definition modify (f : world → world) : M unit := λ w, (Return tt, f w).

Declare Scope py_scope.
Delimit Scope py_scope with py.
Notation "x ← y ; z" := (bind y (λ x : _, z))
  (at level 20, y at level 100, z at level 200, only parsing) : py_scope.
Notation "x ;; z" := (bind x (λ _, z))
  (at level 100, z at level 200, only parsing, right associativity) : py_scope.
Local Open Scope py_scope.

(** [assert b] *)
Definition assert (b : bool) : M unit :=
  if b then ret tt else raise AssertionError.

(** [args[i]] on a tuple *)
Definition getitem (args : list value) (i : nat) : M value :=
  match args !! i with
  | Some v => ret v
  | None => raise IndexError
  end.

Definition log_info (msg : string) : M unit := modify (add_log (INFO, msg)).
Definition log_warning (msg : string) : M unit := modify (add_log (WARNING, msg)).

(** ** OrderedDict operations *)

(** [k in d] *)
Definition od_contains {V} (k : string) (d : OrderedDict V) : bool :=
  bool_decide (k ∈ d.*1).

(** [d[k] = v]: a present key keeps its position, a new key goes last. *)
Fixpoint od_setitem {V} (k : string) (v : V) (d : OrderedDict V) : OrderedDict V :=
  match d with
  | [] => [(k, v)]
  | (k', v') :: d' =>
      if decide (k' = k) then (k, v) :: d' else (k', v') :: od_setitem k v d'
  end.

(** what [d.pop(k)] leaves in [d] *)
Definition od_remove {V} (k : string) (d : OrderedDict V) : OrderedDict V :=
  filter (λ kv, kv.1 ≠ k) d.

(** ** [WechatyPlugin.name] *)

(** [not self.options.name]: [None] and the empty string are both false
    in a condition. *)
Definition name_unset (o : WechatyPluginOptions) : bool :=
  match opt_name o with
  | None => true
  | Some s => bool_decide (s = EmptyString)
  end.

(** The options object a plugin refers to. *)
Definition options_of (p : WechatyPlugin) (w : world) : WechatyPluginOptions :=
  heap w !!! options p.

(** The property [name]: when no name is set, the class name is stored
    in the options object, then [self.options.name] is returned. *)
Definition name (p : WechatyPlugin) : M string :=
  o ← gets (options_of p);
  (if name_unset o then
     modify (λ w, set_heap
       (<[options p := {| opt_name := Some (class_name p);
                          opt_metadata := opt_metadata o |}]> (heap w)) w)
   else ret tt);;
  o' ← gets (options_of p);
  ret (default EmptyString (opt_name o')).

(** ** [WechatyPluginManager] *)

Section manager.

(** Whether the URL pattern compiled in [add_plugin] matches at the start
    of a string; the pattern itself is not interpreted here. *)
Variable regex_match : string → bool.

(** What a handler of a plugin does when it is awaited: [None] when it
    returns, [Some e] when it raises [e].  The handlers of the base class
    all return; a subclass may override them.  A handler does not touch
    the manager. *)
Variable handler : WechatyPlugin → handler_call → option exn.

Definition _load_plugin_from_local_file (plugin_path : string)
  : M (option WechatyPlugin) :=
  log_info ("load plugin from local file <" +:+ plugin_path +:+ ">");;
  ret None.

Definition _load_plugin_from_github_url (github_url : string)
  : M (option WechatyPlugin) :=
  log_info ("load plugin from github url <" +:+ github_url +:+ ">");;
  ret None.

(** [self._plugins[k] = v] and [self._plugin_status[k] = v] *)
Definition plugins_setitem (k : string) (v : WechatyPlugin) : M unit :=
  modify (λ w, set_plugins (od_setitem k v (_plugins w)) w).
Definition plugin_status_setitem (k : string) (v : PluginStatus) : M unit :=
  modify (λ w, set_plugin_status (<[k := v]> (_plugin_status w)) w).

(** [self._plugin_status[k]] *)
Definition plugin_status_getitem (k : string) : M PluginStatus :=
  d ← gets _plugin_status;
  match d !! k with
  | Some s => ret s
  | None => raise (KeyError k)
  end.

Definition add_plugin (plugin : string + WechatyPlugin) : M unit :=
  plugin_instance ←
    match plugin with
    | inl plugin =>
        plugin_instance ←
          (if regex_match plugin
           then _load_plugin_from_github_url plugin
           else _load_plugin_from_local_file plugin);
        match plugin_instance with
        | None => raise (WechatyPluginError (cant_load_plugin plugin))
        | Some plugin_instance => ret (Some plugin_instance)
        end
    | inr plugin =>
        n ← name plugin;
        present ← gets (λ w, od_contains n (_plugins w));
        if present then
          log_warning ("plugin : " +:+ n +:+ " has exist");;
          ret None
        else ret (Some plugin)
    end;
  match plugin_instance with
  | None => ret tt
  | Some plugin_instance =>
      n ← name plugin_instance;
      plugins_setitem n plugin_instance;;
      n ← name plugin_instance;
      plugin_status_setitem n Running
  end.

Definition remove_plugin (name : string) : M unit :=
  present ← gets (λ w, od_contains name (_plugins w));
  (if negb present
   then raise (WechatyPluginError (plugin_not_exist name))
   else ret tt);;
  modify (λ w, set_plugins (od_remove name (_plugins w)) w);;
  _ ← plugin_status_getitem name;
  modify (λ w, set_plugin_status (delete name (_plugin_status w)) w).

Definition _check_plugins (name : string) : M unit :=
  in_plugins ← gets (λ w, od_contains name (_plugins w));
  in_status ← gets (λ w, bool_decide (is_Some (_plugin_status w !! name)));
  if negb in_plugins && negb in_status
  then raise (WechatyPluginError (plugins_not_exist name))
  else ret tt.

Definition stop_plugin (name : string) : M unit :=
  log_info ("stopping the plugin <" +:+ name +:+ ">");;
  _check_plugins name;;
  s ← plugin_status_getitem name;
  (if decide (s = Stopped)
   then log_warning ("plugins <" +:+ name +:+ "> has stopped")
   else ret tt);;
  plugin_status_setitem name Stopped.

Definition start_plugin (name : string) : M unit :=
  log_info ("starting the plugin <" +:+ name +:+ ">");;
  _check_plugins name;;
  plugin_status_setitem name Running.

Definition plugin_status (name : string) : M PluginStatus :=
  _check_plugins name;;
  plugin_status_getitem name.

(** [await plugin.on_...(...)]: the call is made, and what the handler
    raises propagates. *)
Definition await (plugin : WechatyPlugin) (call : handler_call) : M unit :=
  modify (add_invoked (plugin, call));;
  match handler plugin call with
  | None => ret tt
  | Some e => raise e
  end.

(** The loop every branch of [emit_events] ends with:
    [for name, plugin in self._plugins.items(): ...] *)
Fixpoint for_items (items : list (string * WechatyPlugin)) (call : handler_call)
  : M unit :=
  match items with
  | [] => ret tt
  | (name, plugin) :: items =>
      log_info ("emit " +:+ name +:+ "-plugin ...");;
      s ← plugin_status name;
      (if decide (s = Running) then await plugin call else ret tt);;
      for_items items call
  end.

Definition for_plugins (call : handler_call) : M unit :=
  items ← gets _plugins;
  for_items items call.

(** [not args] and [len(args)] on the tuple of positional arguments *)
Definition not_ (args : list value) : bool := bool_decide (args = []).
Definition len (args : list value) : Z := Z.of_nat (length args).

Definition emit_events (event_name : string) (args : list value)
    (kwargs : gmap string value) : M unit :=
  if decide (event_name = "message") then
    (if not_ args && negb (bool_decide (is_Some (kwargs !! "msg")))
     then raise (WechatyPluginError (args_invalid "message" args))
     else ret tt);;
    message ← getitem args 0;
    assert (isinstance message (Class Message));;
    for_plugins (on_message message)

  else if decide (event_name = "friendship") then
    (if not_ args || negb (len args =? 1)%Z
     then raise (WechatyPluginError (args_invalid "friendship event" args))
     else ret tt);;
    friendship ← getitem args 0;
    assert (isinstance friendship (Class Friendship));;
    for_plugins (on_friendship friendship)

  else if decide (event_name = "login") then
    (if not_ args || negb (len args =? 1)%Z
     then raise (WechatyPluginError (args_invalid "login event" args))
     else ret tt);;
    contact ← getitem args 0;
    assert (isinstance contact (Class Contact));;
    for_plugins (on_login contact)

  else if decide (event_name = "room-invite") then
    (if not_ args || negb (len args =? 1)%Z
     then raise (WechatyPluginError (args_invalid "room-invite event" args))
     else ret tt);;
    room_invitation ← getitem args 0;
    assert (isinstance room_invitation (Class RoomInvitation));;
    for_plugins (on_room_invite room_invitation)

  else if decide (event_name = "room-join") then
    (if not_ args || negb (len args =? 4)%Z
     then raise (WechatyPluginError (args_invalid "room-join" args))
     else ret tt);;
    room ← getitem args 0;
    assert (isinstance room (Class Room));;
    invitees ← getitem args 1;
    assert (isinstance invitees BuiltinList);;
    inviter ← getitem args 2;
    assert (isinstance inviter (Class Contact));;
    date ← getitem args 3;
    assert (isinstance date (Class Datetime));;
    for_plugins (on_room_join room invitees inviter date)

  else if decide (event_name = "room-leave") then
    (* the text of this error names room-join in the source too *)
    (if not_ args || negb (len args =? 4)%Z
     then raise (WechatyPluginError (args_invalid "room-join" args))
     else ret tt);;
    room ← getitem args 0;
    assert (isinstance room (Class Room));;
    leavers ← getitem args 1;
    assert (isinstance leavers BuiltinList);;
    remover ← getitem args 2;
    assert (isinstance remover (Class Contact));;
    date ← getitem args 3;
    assert (isinstance date (Class Datetime));;
    for_plugins (on_room_leave room leavers remover date)

  else if decide (event_name = "room-topic") then
    (if not_ args || negb (len args =? 5)%Z
     then raise (WechatyPluginError (args_invalid "room-topic" args))
     else ret tt);;
    room ← getitem args 0;
    assert (isinstance room (Class Room));;
    new_topic ← getitem args 1;
    assert (isinstance new_topic BuiltinStr);;
    old_topic ← getitem args 2;
    assert (isinstance old_topic BuiltinStr);;
    changer ← getitem args 3;
    assert (isinstance changer (Class Contact));;
    date ← getitem args 4;
    assert (isinstance date (Class Datetime));;
    for_plugins (on_room_topic room new_topic old_topic changer date)

  else if decide (event_name = "scan") then
    (if not_ args || (len args <? 0)%Z || (3 <? len args)%Z
     then raise (WechatyPluginError (args_invalid "scan" args))
     else ret tt);;
    qr_code ← getitem args 0;
    assert (isinstance qr_code BuiltinStr);;
    scan_status ← getitem args 1;
    assert (isinstance scan_status BuiltinStr);;
    data ← getitem args 2;
    for_plugins (on_scan qr_code scan_status data)

  else ret tt.

End manager.

(** ** Mention-text extraction *)

(** [Message.mention_text] is defined in [wechaty/user/message.py], which
    is not among the sources; of it the repository has the test
    [tests/user_message_test.py] here.  The definitions of this module are
    therefore written from section 4.3 of the specification, read so that
    the six cases of the test come out. *)
Module Mention.

(** Modelled from the spec: an entry of the member directory (section 3,
    MemberDirectory), missing with [wechaty/user/message.py]: the display
    name of the member and the alias the member has in the room, when
    there is one. *)
Record member := {
  display_name : string;
  room_alias : option string;
}.

(** Python's [str.strip] whitespace, on ASCII text. *)
Definition is_space (c : ascii) : bool :=
  let n := nat_of_ascii c in
  ((9 <=? n) && (n <=? 13) || (28 <=? n) && (n <=? 32))%nat.

Fixpoint ltrim (s : string) : string :=
  match s with
  | EmptyString => EmptyString
  | String c s' => if is_space c then ltrim s' else s
  end.

Fixpoint rtrim (s : string) : string :=
  match s with
  | EmptyString => EmptyString
  | String c s' =>
      match rtrim s' with
      | EmptyString => if is_space c then EmptyString else String c EmptyString
      | r => String c r
      end
  end.

(** Modelled from the spec: the trimming of leading and trailing
    whitespace of step 4, missing with [wechaty/user/message.py]. *)
Definition trim (s : string) : string := rtrim (ltrim s).

(** Modelled from the spec: the name a mention of a member is written
    with after the marker [@] (steps 2 and 3), missing with
    [wechaty/user/message.py]: the room alias when the member has one,
    the display name otherwise.  The alias does not come in addition to
    the name but instead of it: the fifth example of section 8, which is
    [test_mention_text_with_mentions_and_mismatched_alias] of the test,
    keeps the name-form token of a member with an alias in the text. *)
Definition mention_name (m : member) : string :=
  match room_alias m with
  | Some alias => alias
  | None => display_name m
  end.

(** Modelled from the spec: the names of the mentioned ids that the
    directory resolves, in the order of [mentioned_ids] (steps 2 and 5),
    missing with [wechaty/user/message.py]; an id the directory does not
    know gives no name. *)
Definition mention_names (member_directory : gmap string member)
    (mentioned_ids : list string) : list string :=
  omap (λ id, mention_name <$> member_directory !! id) mentioned_ids.

Definition longer (best : option string) (n : string) : option string :=
  match best with
  | None => Some n
  | Some b => if (String.length b <? String.length n)%nat then Some n else Some b
  end.

(** Modelled from the spec: the preference for the longest token of
    step 3, missing with [wechaty/user/message.py]: the longest of the
    names that [s] starts with, the first of them among equally long
    ones. *)
Definition longest_match (names : list string) (s : string) : option string :=
  foldl longer None (filter (λ n, String.prefix n s = true) names).

Definition starts_with_space (s : string) : bool :=
  match s with
  | EmptyString => false
  | String c _ => is_space c
  end.

(** Modelled from the spec: the single pass of step 3 with the removal of
    the whitespace a token leaves behind of step 4, missing with
    [wechaty/user/message.py].  The text is read left to right; [skip]
    counts the characters of a token found earlier that are still to be
    dropped.  Where a marker [@] is followed by one of the names, the
    marker, the name and one whitespace character after it, if there is
    one, are dropped: removing two adjacent tokens leaves the single space
    before them, as the fourth example of section 8 has it, and nothing
    where no space came before, as the fifth has it. *)
Fixpoint remove_mentions (names : list string) (skip : nat) (text : string)
  : string :=
  match text with
  | EmptyString => EmptyString
  | String c rest =>
      match skip with
      | S k => remove_mentions names k rest
      | O =>
          if Ascii.eqb c "@" then
            match longest_match names rest with
            | Some n =>
                let after := String.substring (String.length n)
                               (String.length rest - String.length n) rest in
                remove_mentions names
                  (String.length n + (if starts_with_space after then 1 else 0))
                  rest
            | None => String c (remove_mentions names 0 rest)
            end
          else String c (remove_mentions names 0 rest)
      end
  end.

(** Modelled from the spec: [Message.mention_text], the mention-text
    extraction of [wechaty/user/message.py], which is not among the
    sources.  The steps are those of section 4.3: with no mentioned id the
    text is returned as it is (step 1); otherwise every occurrence of a
    token of a mentioned member is removed in a single pass (steps 2, 3
    and 5), and the result is trimmed (step 4). *)
Definition extract (text : string) (member_directory : gmap string member)
    (mentioned_ids : list string) : string :=
  match mentioned_ids with
  | [] => text
  | _ => trim (remove_mentions (mention_names member_directory mentioned_ids) 0 text)
  end.

(** Whether [t] occurs in [s] as a substring. *)
Fixpoint occurs (t s : string) : bool :=
  String.prefix t s ||
  match s with
  | EmptyString => false
  | String _ s' => occurs t s'
  end.

(** The directory of the room of the fixture [test_bot] of the test. *)
Definition fake_room : gmap string member :=
  {[ "wechaty_user" := {| display_name := "Wechaty User"; room_alias := None |};
     "fake_user" := {| display_name := "Fake User"; room_alias := Some "Fake Alias" |};
     "test_user" := {| display_name := "Test User"; room_alias := None |} ]}.

End Mention.

(** ** Specification-side notions *)

(** The two dictionaries of the manager have the same keys. *)
Definition lockstep (w : world) : Prop :=
  list_to_set (_plugins w).*1 =@{gset string} dom (_plugin_status w).

(** The registered plugins whose status is [Running], in registration
    order. *)
Definition running_in (status : gmap string PluginStatus)
    (items : list (string * WechatyPlugin)) : list WechatyPlugin :=
  (filter (λ kv, status !! kv.1 = Some Running) items).*2.

Definition running_plugins (w : world) : list WechatyPlugin :=
  running_in (_plugin_status w) (_plugins w).

(** What [name] returns in a world, and the world it leaves. *)
Definition resolved_name (p : WechatyPlugin) (w : world) : string :=
  if name_unset (options_of p w) then class_name p
  else default EmptyString (opt_name (options_of p w)).

Definition name_cached (p : WechatyPlugin) (w : world) : world :=
  if name_unset (options_of p w)
  then set_heap (<[options p := {| opt_name := Some (class_name p);
                                   opt_metadata := opt_metadata (options_of p w) |}]>
                   (heap w)) w
  else w.

(** The records [emit_events] logs for the items it walks through. *)
Definition emit_log (items : list (string * WechatyPlugin))
  : list (log_level * string) :=
  (λ kv, (INFO, "emit " +:+ kv.1 +:+ "-plugin ...")) <$> items.

(** The world after an event was dispatched to the running plugins among
    [items] and every handler returned. *)
Definition dispatched (items : list (string * WechatyPlugin))
    (call : handler_call) (w : world) : world :=
  {| heap := heap w; _plugins := _plugins w; _plugin_status := _plugin_status w;
     log := log w ++ emit_log items;
     invoked := invoked w ++ ((λ p, (p, call)) <$> running_in (_plugin_status w) items) |}.

(** The calls [emit_events] accepts, with the handler call each leads
    to: the arguments pass the checks of the branch of the event. *)
Inductive accepted : string → list value → handler_call → Prop :=
  | accepted_message msg rest :
      isinstance msg (Class Message) = true →
      accepted "message" (msg :: rest) (on_message msg)
  | accepted_friendship friendship :
      isinstance friendship (Class Friendship) = true →
      accepted "friendship" [friendship] (on_friendship friendship)
  | accepted_login contact :
      isinstance contact (Class Contact) = true →
      accepted "login" [contact] (on_login contact)
  | accepted_room_invite room_invitation :
      isinstance room_invitation (Class RoomInvitation) = true →
      accepted "room-invite" [room_invitation] (on_room_invite room_invitation)
  | accepted_room_join room invitees inviter date :
      isinstance room (Class Room) = true →
      isinstance invitees BuiltinList = true →
      isinstance inviter (Class Contact) = true →
      isinstance date (Class Datetime) = true →
      accepted "room-join" [room; invitees; inviter; date]
        (on_room_join room invitees inviter date)
  | accepted_room_leave room leavers remover date :
      isinstance room (Class Room) = true →
      isinstance leavers BuiltinList = true →
      isinstance remover (Class Contact) = true →
      isinstance date (Class Datetime) = true →
      accepted "room-leave" [room; leavers; remover; date]
        (on_room_leave room leavers remover date)
  | accepted_room_topic room new_topic old_topic changer date :
      isinstance room (Class Room) = true →
      isinstance new_topic BuiltinStr = true →
      isinstance old_topic BuiltinStr = true →
      isinstance changer (Class Contact) = true →
      isinstance date (Class Datetime) = true →
      accepted "room-topic" [room; new_topic; old_topic; changer; date]
        (on_room_topic room new_topic old_topic changer date)
  | accepted_scan qr_code scan_status data :
      isinstance qr_code BuiltinStr = true →
      isinstance scan_status BuiltinStr = true →
      accepted "scan" [qr_code; scan_status; data]
        (on_scan qr_code scan_status data).

(** The event names [emit_events] has a branch for. *)
Definition event_names : list string :=
  ["message"; "friendship"; "login"; "room-invite"; "room-join";
   "room-leave"; "room-topic"; "scan"].

(** The operations a caller performs on a manager.  An exception of one
    operation is the caller's to handle; the manager keeps what the
    operation had written. *)
Inductive operation :=
  | Add (plugin : string + WechatyPlugin)
  | Remove (name : string)
  | Start (name : string)
  | Stop (name : string)
  | Status (name : string)
  | Emit (event_name : string) (args : list value) (kwargs : gmap string value).

Section operations.

Variable regex_match : string → bool.
Variable handler : WechatyPlugin → handler_call → option exn.

Definition perform (op : operation) (w : world) : world :=
  match op with
  | Add plugin => (add_plugin regex_match plugin w).2
  | Remove name => (remove_plugin name w).2
  | Start name => (start_plugin name w).2
  | Stop name => (stop_plugin name w).2
  | Status name => (plugin_status name w).2
  | Emit event_name args kwargs => (emit_events handler event_name args kwargs w).2
  end.

Definition perform_all (ops : list operation) (w : world) : world :=
  foldl (λ w op, perform op w) w ops.

End operations.

(** ** A concrete registry *)

(** The handlers of the base class [WechatyPlugin]: each returns. *)
Definition base_handlers : WechatyPlugin → handler_call → option exn :=
  λ _ _, None.

(** A pattern that matches no string. *)
Definition no_match : string → bool := λ _, false.

Definition ding_dong : WechatyPlugin :=
  {| ident := 1; class_name := "DingDongPlugin"; options := 1 |}.
Definition daily : WechatyPlugin :=
  {| ident := 2; class_name := "DailyPlugin"; options := 2 |}.
Definition ding_dong_again : WechatyPlugin :=
  {| ident := 3; class_name := "DingDongPlugin"; options := 3 |}.

(** A manager with [ding_dong] running and [daily] stopped. *)
Definition two_plugins : world :=
  perform_all no_match base_handlers
    [Add (inr ding_dong); Add (inr daily); Stop "DailyPlugin"] (init ∅).

Definition error_payload : value := Instance (OtherClass "EventErrorPayload") 7.

(** ** The events of fixed arity *)

(** For each event whose branch checks [len(args) != n]: the words its
    error text names the event with, and the types its assertions expect
    of the arguments, position by position.  The text of room-leave
    names room-join. *)
Definition contract (event_name : string)
  : option (string * list builtin_or_class) :=
  if decide (event_name = "friendship") then
    Some ("friendship event", [Class Friendship])
  else if decide (event_name = "login") then
    Some ("login event", [Class Contact])
  else if decide (event_name = "room-invite") then
    Some ("room-invite event", [Class RoomInvitation])
  else if decide (event_name = "room-join") then
    Some ("room-join", [Class Room; BuiltinList; Class Contact; Class Datetime])
  else if decide (event_name = "room-leave") then
    Some ("room-join", [Class Room; BuiltinList; Class Contact; Class Datetime])
  else if decide (event_name = "room-topic") then
    Some ("room-topic",
          [Class Room; BuiltinStr; BuiltinStr; Class Contact; Class Datetime])
  else None.

(** Every registered plugin still answers to the name it is registered
    under. *)
Definition names_kept (w : world) : Prop :=
  ∀ k p, (k, p) ∈ _plugins w → k ≠ EmptyString →
         opt_name (options_of p w) = Some k.

(** Handlers of which the one of [ding_dong] raises. *)
Definition ding_dong_raises : WechatyPlugin → handler_call → option exn :=
  λ p _, if decide (p = ding_dong) then Some (OtherException "boom") else None.


(** A manager with [daily], [ding_dong] and [ding_dong_again] under a
    name of its own, all running. *)
Definition three_running : world :=
  perform_all no_match base_handlers
    [Add (inr daily); Add (inr ding_dong); Add (inr ding_dong_again)]
    (init {[ 3 := {| opt_name := Some "Again"; opt_metadata := None |} ]}).

(** The manager [three_running] with [ding_dong], the second of the
    three, stopped. *)
Definition middle_stopped : world :=
  perform no_match base_handlers (Stop "DingDongPlugin") three_running.

(** ** [WechatyPluginManager.server_endpoint] *)

(** [str(i)] and the conversion [{i}] of an f-string, for an [int]. *)
Definition str_of_int (i : Z) : string := pretty i.

(** The property [server_endpoint], of the attribute [self.endpoint]. *)
Definition server_endpoint (endpoint : string * Z) : string :=
  let prefix := EmptyString in
  let host := endpoint.1 in
  let port := endpoint.2 in
  let prefix := if negb (String.prefix "http" host) then "http://" else prefix in
  let url := prefix +:+ host +:+ ":" +:+ str_of_int port in
  url.

(** ** [_list_routes_txt] *)

Module Routes.

(** A rule of the URL map of the Quart application: of a rule the
    function reads the endpoint, the set of methods (or [None]), whether it
    is a websocket rule, and the rule string. *)
Record Rule := {
  endpoint : string;
  methods : option (gset string);
  websocket : bool;
  rule : string;
}.

(** [sorted(l, key=key)], a stable sort, on keys that are strings. *)
Fixpoint insert_by {A} (key : A → string) (x : A) (l : list A) : list A :=
  match l with
  | [] => [x]
  | y :: l' =>
      if String.leb (key x) (key y) then x :: y :: l'
      else y :: insert_by key x l'
  end.

Definition sorted {A} (key : A → string) (l : list A) : list A :=
  foldr (insert_by key) [] l.

(** [max(...)] of a sequence of lengths: a [ValueError] when it is
    empty. *)
Definition max_ (l : list nat) : result nat :=
  match l with
  | [] => Raise (OtherException "ValueError")
  | x :: l' => Return (foldl Nat.max x l')
  end.

(** The truth value of [rule.methods] *)
Definition has_methods (r : Rule) : bool :=
  match methods r with
  | None => false
  | Some ms => negb (bool_decide (ms = ∅))
  end.

(** ["-" * n] *)
Fixpoint repeat_str (s : string) (n : nat) : string :=
  match n with
  | 0 => EmptyString
  | S n' => s +:+ repeat_str s n'
  end.

(** The format [{:<w}]: [s], with spaces after it up to the width [w]. *)
Definition ljust (s : string) (w : nat) : string :=
  s +:+ repeat_str " " (w - String.length s).

(** [str(b)] of a [bool] *)
Definition str_of_bool (b : bool) : string := if b then "True" else "False".

(** What [row.format(a, b, c, d)] gives, [row] being built from the four
    widths. *)
Definition row_format (widths : nat * nat * nat * nat) (a b c d : string)
  : string :=
  let '(w0, w1, w2, w3) := widths in
  ljust a w0 +:+ " | " +:+ ljust b w1 +:+ " | " +:+ ljust c w2
  +:+ " | " +:+ ljust d w3.

(** [zip(rules, rule_methods)], as the last loop walks it *)
Fixpoint zip_ {A B} (l : list A) (k : list B) : list (A * B) :=
  match l, k with
  | x :: l', y :: k' => (x, y) :: zip_ l' k'
  | _, _ => []
  end.

Definition _list_routes_txt (app_rules : list Rule) : result string :=
  let rules := app_rules in
  if bool_decide (length rules = 0) then Return "No routes were registered."
  else
    let rules := sorted endpoint rules in
    let rule_methods :=
      (λ r, String.concat ", " (sorted id (elements (default ∅ (methods r)))))
        <$> filter (λ r, has_methods r = true) rules in
    match max_ (String.length ∘ endpoint <$> rules) with
    | Raise e => Raise e
    | Return w0 =>
      match max_ (String.length <$> rule_methods) with
      | Raise e => Raise e
      | Return w1 =>
        let w2 := String.length "Websocket" in
        match max_ (String.length ∘ rule <$> rules) with
        | Raise e => Raise e
        | Return w3 =>
          let widths :=
            (Nat.max (String.length "Endpoint") w0,
             Nat.max (String.length "Methods") w1,
             Nat.max (String.length "Websocket") w2,
             Nat.max (String.length "Rule") w3) in
          let '(x0, x1, x2, x3) := widths in
          let routes_txt := EmptyString in
          let routes_txt :=
            routes_txt
            +:+ Mention.trim
                  (row_format widths "Endpoint" "Methods" "Websocket" "Rule") in
          let routes_txt :=
            routes_txt
            +:+ row_format widths (repeat_str "-" x0) (repeat_str "-" x1)
                  (repeat_str "-" x2) (repeat_str "-" x3) in
          Return
            (foldl (λ routes_txt rm,
                      routes_txt
                      +:+ Mention.rtrim
                            (row_format widths (endpoint rm.1) rm.2
                               (str_of_bool (websocket rm.1)) (rule rm.1)))
               routes_txt (zip_ rules rule_methods))
        end
      end
    end.

End Routes.
(** ** Plugin objects and [WechatyPluginManager.start] *)

Module Server.
Import Routes.

(** The attributes [__init__] gives a plugin besides its options: the bot
    and the output.  An object never written is as [__init__] leaves it. *)
Record plugin_object := {
  bot : option nat;
  output : gmap string value;
}.

Global Instance plugin_object_inhabited : Inhabited plugin_object :=
  populate {| bot := None; output := ∅ |}.

(** The manager with what [start] works on besides: the plugin objects,
    by identity, the URL map of [self.app], and the tasks handed to
    [asyncio.create_task], each the host and port of a [run_task]. *)
Record server := {
  manager : world;
  objects : gmap nat plugin_object;
  url_map : list Rule;
  tasks : list (string * Z);
}.

Definition set_manager (w : world) (s : server) : server :=
  {| manager := w; objects := objects s; url_map := url_map s; tasks := tasks s |}.
Definition set_objects (o : gmap nat plugin_object) (s : server) : server :=
  {| manager := manager s; objects := o; url_map := url_map s; tasks := tasks s |}.
Definition set_url_map (r : list Rule) (s : server) : server :=
  {| manager := manager s; objects := objects s; url_map := r; tasks := tasks s |}.
Definition add_task (t : string * Z) (s : server) : server :=
  {| manager := manager s; objects := objects s; url_map := url_map s;
     tasks := tasks s ++ [t] |}.

(** Methods that work on a server. *)
Definition S (A : Type) : Type := server → result A * server.

Definition retS {A} (a : A) : S A := λ s, (Return a, s).
Definition raiseS {A} (e : exn) : S A := λ s, (Raise e, s).
Definition bindS {A B} (m : S A) (k : A → S B) : S B :=
  λ s, match m s with
       | (Return a, s') => k a s'
       | (Raise e, s') => (Raise e, s')
       end.

(** A method of the manager, run on the manager of the server. *)
Definition lift {A} (m : M A) : S A :=
  λ s, let '(r, w') := m (manager s) in (r, set_manager w' s).

Declare Scope srv_scope.
Notation "x ← y ; z" := (bindS y (λ x : _, z))
  (at level 20, y at level 100, z at level 200, only parsing) : srv_scope.
Notation "x ;; z" := (bindS x (λ _, z))
  (at level 100, z at level 200, only parsing, right associativity) : srv_scope.
Local Open Scope srv_scope.

(** [plugin.set_bot(bot)] *)
Definition set_bot (plugin : WechatyPlugin) (b : nat) : S unit :=
  λ s, (Return tt,
        set_objects
          (<[ident plugin := {| bot := Some b;
                                output := output (objects s !!! ident plugin) |}]>
             (objects s)) s).

(** [plugin.get_output()]; a deep copy of a value is the value. *)
Definition get_output (plugin : WechatyPlugin) : S (gmap string value) :=
  λ s, let final_output := output (objects s !!! ident plugin) in
       (Return final_output,
        set_objects
          (<[ident plugin := {| bot := bot (objects s !!! ident plugin);
                                output := ∅ |}]>
             (objects s)) s).

Section start.

(** [self._wechaty] and [self.endpoint] *)
Variable _wechaty : nat.
Variable endpoint : string * Z.

(** What [init_plugin] of a plugin does when it is awaited: [None] when
    it returns, [Some e] when it raises [e]; and what [blueprint] does
    with the URL map of the application: the map it leaves, and [Some e]
    when it raises.  The methods of the base class return and register
    nothing.  Neither touches the manager. *)
Variable init_plugin : WechatyPlugin → nat → option exn.
Variable blueprint : WechatyPlugin → list Rule → option exn * list Rule.

(** The server after the loop has logged a plugin and given it the bot. *)
Definition bound (p : WechatyPlugin) (n : string) (s : server) : server :=
  set_objects
    (<[ident p := {| bot := Some _wechaty;
                     output := output (objects s !!! ident p) |}]> (objects s))
    (set_manager (add_log (INFO, "init " +:+ n +:+ "-plugin ...") (manager s)) s).

Definition await_init_plugin (plugin : WechatyPlugin) : S unit :=
  match init_plugin plugin _wechaty with
  | None => retS tt
  | Some e => raiseS e
  end.

Definition await_blueprint (plugin : WechatyPlugin) : S unit :=
  λ s, let '(r, rules) := blueprint plugin (url_map s) in
       (match r with None => Return tt | Some e => Raise e end,
        set_url_map rules s).

(** The first loop of [start]; the assertion
    [isinstance(plugin, WechatyPlugin)] holds of every plugin there is. *)
Fixpoint init_items (items : list (string * WechatyPlugin)) : S unit :=
  match items with
  | [] => retS tt
  | (name, plugin) :: items =>
      lift (log_info ("init " +:+ name +:+ "-plugin ..."));;
      set_bot plugin _wechaty;;
      await_init_plugin plugin;;
      await_blueprint plugin;;
      init_items items
  end.

Definition start : S unit :=
  lift (log_info "start the plugins ...");;
  items ← lift (gets _plugins);
  init_items items;;
  let host := endpoint.1 in
  let port := endpoint.2 in
  lift (log_info
    "============================starting web service========================");;
  lift (log_info
    ("starting web service at endpoint: <{" +:+ host +:+ "}:{"
     +:+ str_of_int port +:+ "}>"));;
  (λ s, (Return tt, add_task (host, port) s));;
  routes_txt ← (λ s, (_list_routes_txt (url_map s), s));
  lift (log_info routes_txt);;
  lift (log_info
    "============================web service has started========================").

End start.

End Server.

(** ** The fake puppet of the tests *)

Module FakePuppet.

(** A payload, of which the fake puppet reads the id only; the rest of
    it is carried along. *)
Record payload := {
  id : string;
  content : list (string * value);
}.

(** A [dict] with keys of any type with decidable equality: the items in
    insertion order. *)
Fixpoint dict_setitem {K V} `{EqDecision K} (k : K) (v : V)
    (d : list (K * V)) : list (K * V) :=
  match d with
  | [] => [(k, v)]
  | (k', v') :: d' =>
      if decide (k' = k) then (k, v) :: d' else (k', v') :: dict_setitem k v d'
  end.

(** [d.get(k)] *)
Fixpoint dict_get {K V} `{EqDecision K} (k : K) (d : list (K * V)) : option V :=
  match d with
  | [] => None
  | (k', v') :: d' => if decide (k' = k) then Some v' else dict_get k d'
  end.

(** The attributes of a [FakePuppet], and the lines it has printed. *)
Record puppet := {
  fake_messages : list (string * payload);
  fake_rooms : list (string * payload);
  fake_contacts : list (string * payload);
  fake_room_members : list ((string * string) * payload);
  stdout : list string;
}.

(** [FakePuppet.__init__] *)
Definition new : puppet :=
  {| fake_messages := []; fake_rooms := []; fake_contacts := [];
     fake_room_members := []; stdout := [] |}.

Definition add_message (p : payload) (s : puppet) : puppet :=
  {| fake_messages := dict_setitem (id p) p (fake_messages s);
     fake_rooms := fake_rooms s; fake_contacts := fake_contacts s;
     fake_room_members := fake_room_members s;
     stdout := stdout s ++ [id p] |}.

Definition add_room (p : payload) (s : puppet) : puppet :=
  {| fake_messages := fake_messages s;
     fake_rooms := dict_setitem (id p) p (fake_rooms s);
     fake_contacts := fake_contacts s;
     fake_room_members := fake_room_members s; stdout := stdout s |}.

Definition add_contact (p : payload) (s : puppet) : puppet :=
  {| fake_messages := fake_messages s; fake_rooms := fake_rooms s;
     fake_contacts := dict_setitem (id p) p (fake_contacts s);
     fake_room_members := fake_room_members s; stdout := stdout s |}.

Definition add_room_member (room_id : string) (p : payload) (s : puppet)
  : puppet :=
  {| fake_messages := fake_messages s; fake_rooms := fake_rooms s;
     fake_contacts := fake_contacts s;
     fake_room_members := dict_setitem (room_id, id p) p (fake_room_members s);
     stdout := stdout s |}.

(** [message_search(query)]: the id of the query, whatever is stored; a
    query that is [None] has no attribute [id]. *)
Definition message_search (query : option payload) : result (list string) :=
  match query with
  | Some q => Return [id q]
  | None => Raise (OtherException "AttributeError")
  end.

Definition room_members (room_id : string) (s : puppet) : list payload :=
  (filter (λ kv, kv.1.1 = room_id) (fake_room_members s)).*2.

(** [self.fake_messages[message_id]], after the line it prints *)
Definition message_payload (message_id : string) (s : puppet)
  : result payload * puppet :=
  let s' :=
    {| fake_messages := fake_messages s; fake_rooms := fake_rooms s;
       fake_contacts := fake_contacts s;
       fake_room_members := fake_room_members s;
       stdout := stdout s ++ ["Finding " +:+ message_id] |} in
  (match dict_get message_id (fake_messages s) with
   | Some p => Return p
   | None => Raise (KeyError message_id)
   end, s').

Definition room_member_payload (room_id contact_id : string) (s : puppet)
  : option payload :=
  dict_get (room_id, contact_id) (fake_room_members s).

Definition room_payload (room_id : string) (s : puppet) : result payload :=
  match dict_get room_id (fake_rooms s) with
  | Some p => Return p
  | None => Raise (KeyError room_id)
  end.

Definition contact_payload (contact_id : string) (s : puppet) : result payload :=
  match dict_get contact_id (fake_contacts s) with
  | Some p => Return p
  | None => Raise (KeyError contact_id)
  end.

End FakePuppet.

(** ** Concrete plugins, hooks, rules and payloads *)

(** A plugin that shares the options object of [ding_dong], and one with
    options of its own. *)
Definition shares_options : WechatyPlugin :=
  {| ident := 4; class_name := "OtherPlugin"; options := 1 |}.
Definition weather : WechatyPlugin :=
  {| ident := 5; class_name := "WeatherPlugin"; options := 5 |}.

(** A rule for static files, and a websocket rule without methods. *)
Definition static_rule : Routes.Rule :=
  {| Routes.endpoint := "static";
     Routes.methods := Some {[ "GET"; "HEAD"; "OPTIONS" ]};
     Routes.websocket := false;
     Routes.rule := "/static/<path:filename>" |}.
Definition socket_rule : Routes.Rule :=
  {| Routes.endpoint := "socket";
     Routes.methods := None;
     Routes.websocket := true;
     Routes.rule := "/ws" |}.

(** The hooks of the base class [WechatyPlugin]: each returns, and
    [blueprint] registers nothing. *)
Definition base_init_plugin : WechatyPlugin → nat → option exn :=
  λ _ _, None.
Definition base_blueprint
  : WechatyPlugin → list Routes.Rule → option exn * list Routes.Rule :=
  λ _ rules, (None, rules).

(** Hooks of which [init_plugin] of [daily] raises. *)
Definition daily_init_raises : WechatyPlugin → nat → option exn :=
  λ p _, if decide (p = daily) then Some (OtherException "boom") else None.

(** The manager [two_plugins] with an application that has the static
    rule, before [start]. *)
Definition two_plugins_server : Server.server :=
  {| Server.manager := two_plugins; Server.objects := ∅;
     Server.url_map := [static_rule]; Server.tasks := [] |}.

Definition wechaty_user : FakePuppet.payload :=
  {| FakePuppet.id := "wechaty_user"; FakePuppet.content := [] |}.

(** * Facts *)

(** *** The name of a plugin *)

Lemma name_spec p w : name p w = (Return (resolved_name p w), name_cached p w).
Proof.
  unfold name, resolved_name, name_cached, bind, gets, modify, ret.
  destruct (name_unset (options_of p w)) eqn:E; simpl.
  - unfold options_of, set_heap; simpl.
    rewrite lookup_total_insert_eq. reflexivity.
  - reflexivity.
Qed.

Lemma name_cached_plugins p w : _plugins (name_cached p w) = _plugins w.
Proof. unfold name_cached. by destruct (name_unset _). Qed.

Lemma name_cached_status p w : _plugin_status (name_cached p w) = _plugin_status w.
Proof. unfold name_cached. by destruct (name_unset _). Qed.

Lemma name_cached_invoked p w : invoked (name_cached p w) = invoked w.
Proof. unfold name_cached. by destruct (name_unset _). Qed.

(** Once resolved, the name of a plugin is stable: the second access
    returns what the first returned and writes nothing. *)
Lemma resolved_name_cached p w :
  resolved_name p (name_cached p w) = resolved_name p w.
Proof.
  unfold resolved_name, name_cached.
  destruct (name_unset (options_of p w)) eqn:E; [|by rewrite E].
  unfold options_of, set_heap, name_unset; cbn [heap].
  rewrite lookup_total_insert_eq; cbn [opt_name default].
  by case_bool_decide.
Qed.

Lemma name_cached_idemp p w : name_cached p (name_cached p w) = name_cached p w.
Proof.
  unfold name_cached at 1.
  destruct (name_unset (options_of p (name_cached p w))) eqn:E2; [|done].
  revert E2. unfold name_cached.
  destruct (name_unset (options_of p w)) eqn:E; [intros _|congruence].
  unfold options_of, set_heap; cbn [heap _plugins _plugin_status log invoked].
  rewrite lookup_total_insert_eq; cbn [opt_metadata].
  by rewrite insert_insert_eq.
Qed.

Lemma resolved_name_set_plugins p d w :
  resolved_name p (set_plugins d w) = resolved_name p w.
Proof. reflexivity. Qed.

Lemma name_cached_set_plugins p d w :
  name_cached p (set_plugins d w) = set_plugins d (name_cached p w).
Proof.
  unfold name_cached, options_of; cbn [set_plugins heap].
  by destruct (name_unset _).
Qed.

(** *** Ordered dictionaries *)

Lemma od_contains_true {V} k (d : OrderedDict V) :
  od_contains k d = true ↔ k ∈ d.*1.
Proof. unfold od_contains. by rewrite bool_decide_eq_true. Qed.

Lemma od_contains_false {V} k (d : OrderedDict V) :
  od_contains k d = false ↔ k ∉ d.*1.
Proof. unfold od_contains. by rewrite bool_decide_eq_false. Qed.

(** Assigning under a new key appends. *)
Lemma od_setitem_new {V} k (v : V) d :
  k ∉ d.*1 → od_setitem k v d = (d ++ [(k, v)])%list.
Proof.
  induction d as [|[k' v'] d IH]; csimpl; [done|].
  intros Hk. apply not_elem_of_cons in Hk as [Hne Hk].
  case_decide; [congruence|]. by rewrite IH.
Qed.

Lemma od_setitem_keys {V} k (v : V) d :
  list_to_set (od_setitem k v d).*1 =@{gset string} {[k]} ∪ list_to_set d.*1.
Proof.
  induction d as [|[k' v'] d IH]; csimpl; [set_solver|].
  case_decide; csimpl.
  - subst. clear IH. set_solver.
  - rewrite IH. set_solver.
Qed.

Lemma od_remove_keys {V} k (d : OrderedDict V) :
  list_to_set (od_remove k d).*1 =@{gset string} list_to_set d.*1 ∖ {[k]}.
Proof.
  unfold od_remove.
  induction d as [|[k' v'] d IH]; [set_solver|].
  rewrite filter_cons; cbn [fst].
  case_decide; csimpl; rewrite IH; clear IH; set_solver.
Qed.

Lemma od_remove_NoDup {V} k (d : OrderedDict V) :
  NoDup d.*1 → NoDup (od_remove k d).*1.
Proof.
  unfold od_remove. induction d as [|[k' v'] d IH]; [done|].
  csimpl. intros [Hk Hd]%NoDup_cons. rewrite filter_cons; cbn [fst].
  case_decide; csimpl; [|by apply IH].
  apply NoDup_cons. split; [|by apply IH].
  intros (kv & -> & Hkv%list_elem_of_filter)%list_elem_of_fmap_1.
  apply Hk. apply list_elem_of_fmap_2. tauto.
Qed.

Lemma od_setitem_new_NoDup {V} k (v : V) d :
  k ∉ d.*1 → NoDup d.*1 → NoDup (od_setitem k v d).*1.
Proof.
  intros Hk Hd. rewrite od_setitem_new by done. rewrite fmap_app.
  apply NoDup_app. split; [done|]. split; [|apply NoDup_singleton].
  intros x Hx ->%list_elem_of_singleton. done.
Qed.

(** *** Stepping through the checks of [emit_events] *)

Lemma check_spec (b : bool) e (k : unit → M unit) w :
  bind (if b then raise e else ret tt) k w = if b then (Raise e, w) else k tt w.
Proof. by destruct b. Qed.

Lemma getitem_spec args i (k : value → M unit) w :
  bind (getitem args i) k w =
  match args !! i with Some v => k v w | None => (Raise IndexError, w) end.
Proof. unfold getitem, bind. by destruct (args !! i). Qed.

Lemma assert_spec b (k : unit → M unit) w :
  bind (assert b) k w = if b then k tt w else (Raise AssertionError, w).
Proof. by destruct b. Qed.

Lemma arity_shape n args :
  not_ args || negb (len args =? Z.of_nat n)%Z = false → length args = n.
Proof.
  unfold len. intros [_ H]%orb_false_iff.
  apply negb_false_iff, Z.eqb_eq in H. lia.
Qed.

Lemma scan_arity_shape args :
  not_ args || (len args <? 0)%Z || (3 <? len args)%Z = false →
  (1 ≤ length args ≤ 3)%nat.
Proof.
  unfold len, not_. intros [[H0 _]%orb_false_iff H3]%orb_false_iff.
  apply bool_decide_eq_false in H0. apply Z.ltb_ge in H3.
  destruct args; [done|]. simpl in *. lia.
Qed.

Lemma scan_arity_rejected args :
  not_ args || (len args <? 0)%Z || (3 <? len args)%Z = true
  ↔ length args = 0 ∨ 3 < length args.
Proof.
  unfold not_, len.
  rewrite !orb_true_iff, bool_decide_eq_true, !Z.ltb_lt. split.
  - intros [[->|H]|H]; [by left|lia|right; lia].
  - intros [H|H]; [left; left; by destruct args|right; lia].
Qed.

(** Run the indexings and assertions of a branch on a tuple of known
    length, with both outcomes of every [isinstance]. *)
Ltac run_checks :=
  repeat first
    [ rewrite getitem_spec; cbn [lookup list_lookup]
    | rewrite assert_spec;
      match goal with |- context [isinstance ?v ?t] =>
        let E := fresh "Hinst" in destruct (isinstance v t) eqn:E end ].

(** The call passed every check: it is accepted. *)
Ltac accept := right; right; eexists; split; [by constructor|done].

(** A branch whose arity check is [not args or len(args) != n]. *)
Ltac fixed_arity args n :=
  let E := fresh "E" in
  destruct (not_ args || _) eqn:E; [eauto|];
  apply (arity_shape n) in E;
  do 6 (try destruct args as [|? args]); try discriminate E;
  run_checks; eauto; accept.

(** *** Lock-step and the status of a plugin *)

Lemma lockstep_elem w n :
  lockstep w → n ∈ (_plugins w).*1 ↔ is_Some (_plugin_status w !! n).
Proof.
  unfold lockstep. intros H.
  rewrite <- elem_of_dom, <- H. by rewrite elem_of_list_to_set.
Qed.

Lemma plugin_status_some n s w :
  _plugin_status w !! n = Some s → plugin_status n w = (Return s, w).
Proof.
  intros H. unfold plugin_status, _check_plugins, plugin_status_getitem, bind, gets; simpl.
  rewrite H. rewrite (bool_decide_eq_true_2 (is_Some (Some s))); [|by eexists].
  rewrite andb_false_r. simpl. by rewrite H.
Qed.

Lemma running_in_cons status n p items :
  running_in status ((n, p) :: items) =
  if decide (status !! n = Some Running) then p :: running_in status items
  else running_in status items.
Proof.
  unfold running_in. rewrite filter_cons; cbn [fst]. by case_decide.
Qed.

Lemma _check_plugins_spec n w :
  _check_plugins n w =
    (if negb (od_contains n (_plugins w))
        && negb (bool_decide (is_Some (_plugin_status w !! n)))
     then Raise (WechatyPluginError (plugins_not_exist n)) else Return tt, w).
Proof.
  unfold _check_plugins, bind, gets. by destruct (_ && _).
Qed.

Lemma plugin_status_none n w :
  _plugin_status w !! n = None → ∃ e, plugin_status n w = (Raise e, w).
Proof.
  intros H. unfold plugin_status, bind. rewrite _check_plugins_spec.
  destruct (_ && _); [eauto|].
  unfold plugin_status_getitem, bind, gets. rewrite H. eauto.
Qed.

(** *** The operations on the registry *)

Lemma remove_plugin_spec n w :
  remove_plugin n w =
    if od_contains n (_plugins w) then
      match _plugin_status w !! n with
      | Some _ =>
          (Return tt,
           set_plugin_status (delete n (_plugin_status w))
             (set_plugins (od_remove n (_plugins w)) w))
      | None => (Raise (KeyError n), set_plugins (od_remove n (_plugins w)) w)
      end
    else (Raise (WechatyPluginError (plugin_not_exist n)), w).
Proof.
  unfold remove_plugin, bind, gets, plugin_status_getitem, bind, gets.
  destruct (od_contains n (_plugins w)); [|done]. cbn.
  by destruct (_plugin_status w !! n).
Qed.

Lemma start_plugin_spec n w :
  start_plugin n w =
    let w1 := add_log (INFO, "starting the plugin <" +:+ n +:+ ">") w in
    if negb (od_contains n (_plugins w))
       && negb (bool_decide (is_Some (_plugin_status w !! n)))
    then (Raise (WechatyPluginError (plugins_not_exist n)), w1)
    else (Return tt, set_plugin_status (<[n := Running]> (_plugin_status w)) w1).
Proof.
  unfold start_plugin, bind at 1. cbn [log_info modify].
  unfold bind. rewrite _check_plugins_spec. cbn [add_log _plugins _plugin_status].
  by destruct (_ && _).
Qed.

Lemma stop_plugin_spec n w :
  stop_plugin n w =
    let w1 := add_log (INFO, "stopping the plugin <" +:+ n +:+ ">") w in
    if negb (od_contains n (_plugins w))
       && negb (bool_decide (is_Some (_plugin_status w !! n)))
    then (Raise (WechatyPluginError (plugins_not_exist n)), w1)
    else match _plugin_status w !! n with
         | None => (Raise (KeyError n), w1)
         | Some s =>
             (Return tt,
              set_plugin_status (<[n := Stopped]> (_plugin_status w))
                (if decide (s = Stopped)
                 then add_log (WARNING, "plugins <" +:+ n +:+ "> has stopped") w1
                 else w1))
         end.
Proof.
  unfold stop_plugin, bind at 1. cbn [log_info modify].
  unfold bind at 1. rewrite _check_plugins_spec. cbn [add_log _plugins _plugin_status].
  destruct (_ && _); [done|].
  unfold bind, plugin_status_getitem, bind, gets. cbn.
  destruct (_plugin_status w !! n) as [s|]; [|done].
  by destruct s.
Qed.

Lemma plugin_status_spec n w :
  plugin_status n w =
    (if negb (od_contains n (_plugins w))
        && negb (bool_decide (is_Some (_plugin_status w !! n)))
     then Raise (WechatyPluginError (plugins_not_exist n))
     else match _plugin_status w !! n with
          | Some s => Return s
          | None => Raise (KeyError n)
          end, w).
Proof.
  unfold plugin_status, bind. rewrite _check_plugins_spec.
  destruct (_ && _); [done|].
  unfold plugin_status_getitem, bind, gets.
  by destruct (_plugin_status w !! n).
Qed.

(** Under lock-step, a name that is not a key of [_plugins] is in neither
    dictionary, and a key of [_plugins] has a status. *)
Lemma lockstep_absent w n :
  lockstep w → n ∉ (_plugins w).*1 →
  od_contains n (_plugins w) = false ∧ _plugin_status w !! n = None.
Proof.
  intros Hl Hn. split; [by apply od_contains_false|].
  apply eq_None_not_Some. by rewrite <- lockstep_elem.
Qed.

Lemma lockstep_present w n :
  lockstep w → n ∈ (_plugins w).*1 →
  od_contains n (_plugins w) = true ∧ is_Some (_plugin_status w !! n).
Proof.
  intros Hl Hn. split; [by apply od_contains_true|].
  by rewrite <- lockstep_elem.
Qed.

Lemma status_known n s w :
  _plugin_status w !! n = Some s →
  negb (od_contains n (_plugins w))
  && negb (bool_decide (is_Some (_plugin_status w !! n))) = false.
Proof.
  intros ->. rewrite (bool_decide_eq_true_2 (is_Some (Some s))) by eauto.
  apply andb_false_r.
Qed.

Lemma running_in_subseteq status items : running_in status items ⊆ items.*2.
Proof.
  intros p (kv & -> & Hkv%list_elem_of_filter)%list_elem_of_fmap_1.
  apply list_elem_of_fmap_2. tauto.
Qed.

(** A plugin registered under a new key goes last in the order of
    dispatch. *)
Lemma running_in_new status n p items :
  n ∉ items.*1 →
  running_in (<[n := Running]> status) (items ++ [(n, p)])
  = running_in status items ++ [p].
Proof.
  intros Hn. unfold running_in.
  rewrite filter_app, fmap_app. f_equal.
  - f_equal. induction items as [|[k q] items IH]; [done|].
    csimpl in Hn. apply not_elem_of_cons in Hn as [Hne Hn].
    rewrite !filter_cons. cbn [fst].
    rewrite lookup_insert_ne by done. rewrite IH by done. done.
  - rewrite filter_cons. cbn [fst].
    rewrite lookup_insert_eq. by rewrite decide_True.
Qed.

(** ** The manager, for any URL pattern and any handlers *)

Section facts.

#[local] Set Default Proof Using "Type".

Context (regex_match : string → bool).
Context (handler : WechatyPlugin → handler_call → option exn).

(** What [add_plugin] does with a plugin instance. *)
Lemma add_plugin_instance p w :
  add_plugin regex_match (inr p) w =
    (Return tt,
     let n := resolved_name p w in
     let w1 := name_cached p w in
     if od_contains n (_plugins w)
     then add_log (WARNING, "plugin : " +:+ n +:+ " has exist") w1
     else set_plugin_status (<[n := Running]> (_plugin_status w1))
            (set_plugins (od_setitem n p (_plugins w1)) w1)).
Proof.
  unfold add_plugin, bind. rewrite name_spec; simpl.
  rewrite name_cached_plugins.
  destruct (od_contains _ _) eqn:E; simpl; [done|].
  rewrite name_spec, resolved_name_cached, name_cached_idemp.
  rewrite name_spec, resolved_name_set_plugins, name_cached_set_plugins.
  rewrite ?resolved_name_cached, ?name_cached_idemp, ?name_cached_plugins.
  reflexivity.
Qed.

(** What [add_plugin] does with a string: neither loader finds a
    plugin. *)
Lemma add_plugin_string s w :
  add_plugin regex_match (inl s) w =
    (Raise (WechatyPluginError (cant_load_plugin s)),
     add_log (INFO, if regex_match s
                    then "load plugin from github url <" +:+ s +:+ ">"
                    else "load plugin from local file <" +:+ s +:+ ">") w).
Proof.
  unfold add_plugin, bind.
  by destruct (regex_match s).
Qed.

(** Every call of [emit_events] is of one of three kinds: the event name
    has no branch and nothing happens; a check of the branch raises before
    the world is touched; the call is accepted and the loop over the
    plugins runs. *)
Lemma emit_events_cases ev args kw w :
  ((ev ∉ event_names) ∧ emit_events handler ev args kw w = (Return tt, w))
  ∨ (∃ e, emit_events handler ev args kw w = (Raise e, w))
  ∨ (∃ call, accepted ev args call ∧ emit_events handler ev args kw w = for_plugins handler call w).
Proof.
  clear regex_match.
  unfold emit_events.
  repeat case_decide; subst; rewrite ?check_spec.
  - destruct args as [|m rest]; cbn.
    + destruct (bool_decide _); cbn; eauto.
    + run_checks; eauto. accept.
  - fixed_arity args 1.
  - fixed_arity args 1.
  - fixed_arity args 1.
  - fixed_arity args 4.
  - fixed_arity args 4.
  - fixed_arity args 5.
  - destruct (not_ args || _ || _) eqn:E; [eauto|]. apply scan_arity_shape in E.
    destruct args as [|a1 [|a2 [|a3 [|? ?]]]]; simpl in E; try lia.
    all: run_checks; eauto. accept.
  - left. split; [|done]. unfold event_names. set_solver.
Qed.

(** *** The loop over the plugins *)

(** When every item has a status and the handlers of the running plugins
    return, the loop calls each running plugin, in order, and returns. *)
Lemma for_items_spec items call w :
  (∀ kv, kv ∈ items → is_Some (_plugin_status w !! kv.1)) →
  (∀ p, p ∈ running_in (_plugin_status w) items → handler p call = None) →
  for_items handler items call w = (Return tt, dispatched items call w).
Proof.
  revert w. induction items as [|[n p] items IH]; intros w Hst Hh.
  - cbn. unfold ret, dispatched, emit_log, running_in. cbn.
    rewrite !app_nil_r. by destruct w.
  - destruct (Hst (n, p)) as [s Hs]; [left|]. cbn [fst] in Hs.
    rewrite running_in_cons in Hh.
    cbn [for_items]. unfold bind at 1. cbn [log_info modify].
    unfold bind at 1. rewrite (plugin_status_some n s); [|done].
    unfold bind at 1.
    assert (Hst' : ∀ w', _plugin_status w' = _plugin_status w →
              ∀ kv, kv ∈ items → is_Some (_plugin_status w' !! kv.1)).
    { intros w' -> kv Hkv. apply Hst. by right. }
    destruct s.
    + rewrite decide_True in Hh by done.
      rewrite decide_True by done.
      unfold await, bind at 1. cbn [modify].
      rewrite (Hh p) by left. cbn [ret].
      rewrite IH.
      * f_equal. unfold dispatched, emit_log.
        rewrite running_in_cons, decide_True by done.
        cbn [heap _plugins _plugin_status log invoked add_invoked add_log].
        by rewrite !fmap_cons, <- !app_assoc.
      * by apply Hst'.
      * intros q Hq. apply Hh. by right.
    + rewrite decide_False in Hh by (rewrite Hs; done).
      rewrite decide_False by done. cbn [ret].
      rewrite IH.
      * f_equal. unfold dispatched, emit_log.
        rewrite running_in_cons, decide_False by (rewrite Hs; done).
        cbn [heap _plugins _plugin_status log invoked add_invoked add_log].
        by rewrite !fmap_cons, <- !app_assoc.
      * by apply Hst'.
      * done.
Qed.

(** Whatever the handlers do, the loop leaves the dictionaries alone and
    calls a prefix of the running plugins, in order. *)
Lemma for_items_frame items call w :
  ∃ r w' l, for_items handler items call w = (r, w')
    ∧ heap w' = heap w ∧ _plugins w' = _plugins w
    ∧ _plugin_status w' = _plugin_status w
    ∧ l `prefix_of` running_in (_plugin_status w) items
    ∧ invoked w' = (invoked w ++ ((λ p, (p, call)) <$> l))%list.
Proof.
  revert w. induction items as [|[n p] items IH]; intros w.
  - exists (Return tt), w, []. cbn. by rewrite app_nil_r.
  - cbn [for_items]. unfold bind at 1. cbn [log_info modify].
    set (w1 := add_log _ w). unfold bind at 1.
    rewrite running_in_cons.
    destruct (_plugin_status w !! n) as [s|] eqn:Hs.
    + rewrite (plugin_status_some n s) by done.
      destruct s.
      * rewrite !decide_True by done. unfold bind at 1, await, bind at 1.
        cbn [modify]. set (w2 := add_invoked _ w1).
        destruct (handler p call) as [e|].
        -- exists (Raise e), w2, [p]. cbn. repeat split; try done.
           by apply prefix_cons, prefix_nil.
        -- cbn [ret]. destruct (IH w2) as (r & w' & l & -> & ? & ? & ? & Hl & Hi).
           exists r, w', (p :: l). repeat split; try done.
           ++ by apply prefix_cons.
           ++ rewrite Hi. cbn. by rewrite <- app_assoc.
      * rewrite !decide_False by done. unfold bind at 1. cbn [ret].
        destruct (IH w1) as (r & w' & l & -> & ? & ? & ? & Hl & Hi).
        exists r, w', l. repeat split; done.
    + destruct (plugin_status_none n w1) as [e ->]; [done|].
      exists (Raise e), w1, []. cbn. rewrite app_nil_r. repeat split; try done.
      apply prefix_nil.
Qed.

Lemma emit_events_frame ev args kw w :
  ∃ r w' calls, emit_events handler ev args kw w = (r, w')
    ∧ heap w' = heap w ∧ _plugins w' = _plugins w
    ∧ _plugin_status w' = _plugin_status w
    ∧ calls.*1 `prefix_of` running_plugins w
    ∧ invoked w' = (invoked w ++ calls)%list.
Proof.
  destruct (emit_events_cases ev args kw w)
    as [[_ ->]|[[e ->]|(call & _ & ->)]].
  - exists (Return tt), w, []. rewrite app_nil_r. repeat split; try done.
    apply prefix_nil.
  - exists (Raise e), w, []. rewrite app_nil_r. repeat split; try done.
    apply prefix_nil.
  - unfold for_plugins, bind, gets.
    destruct (for_items_frame (_plugins w) call w)
      as (r & w' & l & -> & ? & ? & ? & Hl & Hi).
    exists r, w', ((λ p, (p, call)) <$> l). repeat split; try done.
    rewrite <- list_fmap_compose. by rewrite list_fmap_id.
Qed.

Lemma lockstep_same_maps w w' :
  _plugins w' = _plugins w → _plugin_status w' = _plugin_status w →
  lockstep w → lockstep w'.
Proof. unfold lockstep. by intros -> ->. Qed.

(** Every operation keeps the two dictionaries in lock-step. *)
Lemma perform_lockstep op w :
  lockstep w → lockstep (perform regex_match handler op w).
Proof.
  intros Hl. destruct op as [[s|p]|n|n|n|n|ev args kw]; cbn [perform].
  - rewrite add_plugin_string. by apply (lockstep_same_maps w).
  - rewrite add_plugin_instance. cbn zeta.
    destruct (od_contains _ _) eqn:E; cbn [snd].
    + apply (lockstep_same_maps w); [apply name_cached_plugins|apply name_cached_status|done].
    + unfold lockstep in *. cbn [set_plugin_status set_plugins _plugins _plugin_status].
      rewrite od_setitem_keys, dom_insert_L, name_cached_plugins, name_cached_status.
      by rewrite Hl.
  - rewrite remove_plugin_spec.
    destruct (od_contains n (_plugins w)) eqn:E; [|done].
    apply od_contains_true in E. destruct (lockstep_present w n Hl E) as [_ [s ->]].
    unfold lockstep in *. cbn.
    by rewrite od_remove_keys, dom_delete_L, Hl.
  - rewrite start_plugin_spec. cbn zeta.
    destruct (_ && _) eqn:E; [by apply (lockstep_same_maps w)|].
    assert (n ∈ dom (_plugin_status w)) as Hn.
    { apply andb_false_iff in E as [E|E]; apply negb_false_iff in E.
      - apply od_contains_true in E. apply elem_of_dom. by apply lockstep_elem.
      - apply bool_decide_eq_true in E. by apply elem_of_dom. }
    unfold lockstep in *. cbn. rewrite dom_insert_L, Hl. set_solver.
  - rewrite stop_plugin_spec. cbn zeta.
    destruct (_ && _) eqn:E; [by apply (lockstep_same_maps w)|].
    destruct (_plugin_status w !! n) as [s|] eqn:Hs; [|by apply (lockstep_same_maps w)].
    assert (n ∈ dom (_plugin_status w)) as Hn by (apply elem_of_dom; eauto).
    unfold lockstep in *. cbn. rewrite dom_insert_L.
    destruct (decide (s = Stopped)); cbn; rewrite Hl; set_solver.
  - rewrite plugin_status_spec. done.
  - destruct (emit_events_frame ev args kw w) as (r & w' & l & -> & _ & ? & ? & _).
    by apply (lockstep_same_maps w).
Qed.

Lemma perform_all_lockstep ops w :
  lockstep w → lockstep (perform_all regex_match handler ops w).
Proof.
  revert w. induction ops as [|op ops IH]; intros w Hl; [done|].
  cbn. apply IH. by apply perform_lockstep.
Qed.

(** Every operation keeps the keys of [_plugins] distinct, as the keys of
    a dictionary are. *)
Lemma perform_NoDup op w :
  NoDup (_plugins w).*1 → NoDup (_plugins (perform regex_match handler op w)).*1.
Proof.
  intros Hd. destruct op as [[s|p]|n|n|n|n|ev args kw]; cbn [perform].
  - by rewrite add_plugin_string.
  - rewrite add_plugin_instance. cbn zeta.
    destruct (od_contains _ _) eqn:E; cbn [snd].
    + cbn [add_log _plugins]. by rewrite name_cached_plugins.
    + cbn [set_plugin_status set_plugins _plugins]. rewrite name_cached_plugins.
      apply od_contains_false in E. by apply od_setitem_new_NoDup.
  - rewrite remove_plugin_spec. destruct (od_contains n (_plugins w)); [|done].
    destruct (_plugin_status w !! n); cbn; by apply od_remove_NoDup.
  - rewrite start_plugin_spec. cbn zeta. by destruct (_ && _).
  - rewrite stop_plugin_spec. cbn zeta. destruct (_ && _); [done|].
    by destruct (_plugin_status w !! n) as [[]|].
  - by rewrite plugin_status_spec.
  - destruct (emit_events_frame ev args kw w) as (r & w' & l & -> & _ & Hp & _).
    cbn [snd]. by rewrite Hp.
Qed.

Lemma perform_all_NoDup ops w :
  NoDup (_plugins w).*1 →
  NoDup (_plugins (perform_all regex_match handler ops w)).*1.
Proof.
  revert w. induction ops as [|op ops IH]; intros w Hd; [done|].
  cbn. apply IH. by apply perform_NoDup.
Qed.


(** An accepted call passes every check of its branch and reaches the
    loop. *)
Lemma accepted_dispatches ev args kw call w :
  accepted ev args call →
  emit_events handler ev args kw w = for_plugins handler call w.
Proof.
  intros Hacc. unfold emit_events.
  destruct Hacc;
    repeat (rewrite decide_False by done); rewrite decide_True by done;
    rewrite check_spec; cbn -[for_plugins isinstance].
  all: repeat match goal with
         | H : isinstance _ _ = true |- _ =>
             rewrite H; clear H; cbn -[for_plugins isinstance]
         end.
  all: reflexivity.
Qed.

Lemma lockstep_init h : lockstep (init h).
Proof. unfold lockstep, init. cbn. set_solver. Qed.

(** After [add_plugin] the name of the plugin is a key of [_plugins], and
    the values of [_plugins] are the old ones and possibly the plugin. *)
Lemma add_plugin_registered p w :
  let w' := (add_plugin regex_match (inr p) w).2 in
  resolved_name p w ∈ (_plugins w').*1
  ∧ (_plugins w').*2 ⊆ (_plugins w).*2 ++ [p].
Proof.
  clear handler.
  rewrite add_plugin_instance. cbn zeta.
  destruct (od_contains _ _) eqn:E; cbn [snd].
  - cbn [add_log _plugins]. rewrite name_cached_plugins. split.
    + by apply od_contains_true.
    + set_solver.
  - cbn [set_plugin_status set_plugins _plugins]. rewrite name_cached_plugins.
    apply od_contains_false in E. rewrite od_setitem_new by done.
    rewrite !fmap_app. split; [|done]. set_solver.
Qed.

(** *** Events without a branch *)

(** C1, as the code has it: for each of the event names error, heartbeat
    and ready, [emit_events] has no branch; whatever the arguments, the
    call returns, no handler is called on any plugin and the world is left
    as it was, log included. *)
Theorem emit_error_heartbeat_ready_does_nothing ev args kw w :
  ev ∈ ["error"; "heartbeat"; "ready"] →
  emit_events handler ev args kw w = (Return tt, w).
Proof.
  rewrite !elem_of_cons, elem_of_nil.
  intros [->|[->|[->|[]]]]; reflexivity.
Qed.

(** *** The message event *)

(** C2, as the code has it: [emit_events] for message with no positional
    argument and no keyword msg raises [WechatyPluginError]; with a first
    argument that is not a [Message] it fails the assertion, an
    [AssertionError]; in both cases the world is untouched, so no handler
    has been called. *)
Theorem emit_message_rejects :
  (∀ kw w, kw !! "msg" = None →
     emit_events handler "message" [] kw w =
       (Raise (WechatyPluginError (args_invalid "message" [])), w))
  ∧ (∀ x rest kw w, isinstance x (Class Message) = false →
       emit_events handler "message" (x :: rest) kw w = (Raise AssertionError, w)).
Proof.
  split.
  - intros kw w Hkw. unfold emit_events.
    rewrite decide_True by done. rewrite check_spec.
    rewrite Hkw. reflexivity.
  - intros x rest kw w Hx. unfold emit_events.
    rewrite decide_True by done. rewrite check_spec. cbn [not_ andb bool_decide].
    rewrite getitem_spec. cbn [lookup list_lookup].
    by rewrite assert_spec, Hx.
Qed.

(** *** The scan event *)

(** C3, as the code has it: [emit_events] for scan raises the arity
    error exactly when there is no positional argument or there are more
    than three; with one to three arguments whatever goes wrong is not a
    [WechatyPluginError]; and a call with the three arguments qr code,
    status and data, the first two of them strings, is accepted: [on_scan]
    is called on every running plugin, in registration order, and the call
    returns. *)
Theorem emit_scan_arity :
  (∀ args kw w, length args = 0 ∨ 3 < length args →
     emit_events handler "scan" args kw w =
       (Raise (WechatyPluginError (args_invalid "scan" args)), w))
  ∧ (∀ args kw w, 1 ≤ length args ≤ 3 → lockstep w →
       (∀ p call, p ∈ running_plugins w → handler p call = None) →
       ∀ text, (emit_events handler "scan" args kw w).1
               ≠ Raise (WechatyPluginError text))
  ∧ (∀ qr_code scan_status data kw w,
       isinstance qr_code BuiltinStr = true →
       isinstance scan_status BuiltinStr = true →
       lockstep w →
       (∀ p, p ∈ running_plugins w →
          handler p (on_scan qr_code scan_status data) = None) →
       emit_events handler "scan" [qr_code; scan_status; data] kw w =
         (Return tt,
          dispatched (_plugins w) (on_scan qr_code scan_status data) w)).
Proof.
  split; [|split].
  - intros args kw w Hlen. unfold emit_events.
    rewrite decide_False, decide_False, decide_False, decide_False,
      decide_False, decide_False, decide_False, decide_True by done.
    rewrite check_spec.
    apply scan_arity_rejected in Hlen. by rewrite Hlen.
  - intros args kw w Hlen Hl Hh text.
    destruct (emit_events_cases "scan" args kw w)
      as [[Hn _]|[[e He]|(call & Hacc & ->)]].
    + exfalso. apply Hn. unfold event_names. set_solver.
    + revert He. unfold emit_events.
      rewrite decide_False, decide_False, decide_False, decide_False,
        decide_False, decide_False, decide_False, decide_True by done.
      rewrite check_spec.
      destruct (not_ args || _ || _) eqn:E.
      { apply scan_arity_rejected in E. lia. }
      destruct args as [|a1 [|a2 [|a3 [|? ?]]]]; simpl in Hlen; try lia.
      all: run_checks; intros He; rewrite ?He; cbn; try congruence.
      all: try (injection He as <- _; congruence).
      exfalso. revert He. unfold for_plugins, bind, gets.
      rewrite for_items_spec; [done| |].
      * intros kv Hkv. eapply lockstep_present; [done|].
        by apply list_elem_of_fmap_2.
      * intros p Hp. by apply Hh.
    + unfold for_plugins, bind, gets. rewrite for_items_spec; [done| |].
      * intros kv Hkv. eapply lockstep_present; [done|].
        by apply list_elem_of_fmap_2.
      * intros p Hp. by apply Hh.
  - intros qr_code scan_status data kw w Hq Hs Hl Hh. unfold emit_events.
    rewrite decide_False, decide_False, decide_False, decide_False,
      decide_False, decide_False, decide_False, decide_True by done.
    rewrite check_spec.
    set (args := [qr_code; scan_status; data]).
    assert (not_ args || (len args <? 0)%Z || (3 <? len args)%Z = false) as ->.
    { apply not_true_iff_false. rewrite scan_arity_rejected. simpl. lia. }
    subst args. rewrite getitem_spec. cbn [lookup list_lookup].
    rewrite assert_spec, Hq, getitem_spec. cbn [lookup list_lookup].
    rewrite assert_spec, Hs.
    unfold bind at 1, getitem. cbn [lookup list_lookup ret].
    unfold for_plugins, bind, gets. apply for_items_spec; [|done].
    intros kv Hkv. eapply lockstep_present; [done|].
    by apply list_elem_of_fmap_2.
Qed.

(** *** Dispatch order *)


(** *** Registration *)

(** C5: adding a plugin instance never raises; when the name of the
    instance is already a key of the registry neither dictionary changes,
    so the size is the same, the instance registered under the name is the
    one there was and its status is what it was; otherwise the instance
    goes last in [_plugins], so last in the order of dispatch, with status
    [Running]. *)
Theorem add_plugin_once p w :
  ∃ w', add_plugin regex_match (inr p) w = (Return tt, w')
    ∧ let n := resolved_name p w in
      if od_contains n (_plugins w)
      then _plugins w' = _plugins w
           ∧ _plugin_status w' = _plugin_status w
           ∧ length (_plugins w') = length (_plugins w)
      else _plugins w' = _plugins w ++ [(n, p)]
           ∧ _plugin_status w' = <[n := Running]> (_plugin_status w)
           ∧ running_plugins w' = running_plugins w ++ [p].
Proof.
  rewrite add_plugin_instance. eexists. split; [done|]. cbn zeta.
  destruct (od_contains _ _) eqn:E.
  - cbn [add_log _plugins _plugin_status].
    by rewrite name_cached_plugins, name_cached_status.
  - apply od_contains_false in E. unfold running_plugins.
    cbn [set_plugin_status set_plugins _plugins _plugin_status].
    rewrite name_cached_plugins, name_cached_status, od_setitem_new by done.
    by rewrite running_in_new.
Qed.

(** *** Names that are not registered *)

(** C6: on a manager whose dictionaries are in lock-step, for a name
    that is not registered, [remove_plugin], [start_plugin], [stop_plugin]
    and [plugin_status] each raise [WechatyPluginError] with the text that
    the plugin does not exist, and neither dictionary has changed. *)
Theorem unregistered_name_raises n w :
  lockstep w → n ∉ (_plugins w).*1 →
  remove_plugin n w = (Raise (WechatyPluginError (plugin_not_exist n)), w)
  ∧ (∃ w', start_plugin n w
             = (Raise (WechatyPluginError (plugins_not_exist n)), w')
       ∧ _plugins w' = _plugins w ∧ _plugin_status w' = _plugin_status w)
  ∧ (∃ w', stop_plugin n w
             = (Raise (WechatyPluginError (plugins_not_exist n)), w')
       ∧ _plugins w' = _plugins w ∧ _plugin_status w' = _plugin_status w)
  ∧ plugin_status n w
      = (Raise (WechatyPluginError (plugins_not_exist n)), w).
Proof.
  intros Hl Hn. destruct (lockstep_absent w n Hl Hn) as [Hp Hs].
  rewrite remove_plugin_spec, start_plugin_spec, stop_plugin_spec,
    plugin_status_spec. cbn zeta.
  rewrite Hp, Hs. cbn [negb andb].
  rewrite bool_decide_eq_false_2 by (by intros [? ?]). cbn [negb].
  repeat split; eauto.
Qed.

(** *** The invariant of the registry *)

(** C9: after any sequence of operations on a new manager (adding,
    removing, starting, stopping, asking the status, and emitting events
    as well) the keys of [_plugins] are the keys of [_plugin_status]: a
    name is registered exactly when it has a status, and it is registered
    once. *)
Theorem dictionaries_in_lockstep h ops :
  let w := perform_all regex_match handler ops (init h) in
  list_to_set (_plugins w).*1 =@{gset string} dom (_plugin_status w)
  ∧ (∀ n, n ∈ (_plugins w).*1 ↔ is_Some (_plugin_status w !! n))
  ∧ NoDup (_plugins w).*1.
Proof.
  cbn zeta.
  pose proof (perform_all_lockstep ops (init h) (lockstep_init h)) as Hl.
  split; [exact Hl|]. split; [intros n; by apply lockstep_elem|].
  apply perform_all_NoDup. apply NoDup_nil_2.
Qed.

(** *** Two instances of one class *)

(** C10: of two distinct instances of one class, neither with a name set
    in its options, the property [name] returns the class name, for the
    second also once the first has been added; the class name is then a
    key of the registry, and adding the second returns without an error
    and changes neither dictionary, the second instance is not among the
    registered plugins, and no event emitted afterwards calls a handler
    on it. *)
Theorem second_instance_of_class_ignored p1 p2 w :
  p1 ≠ p2 → class_name p1 = class_name p2 →
  name_unset (options_of p1 w) = true →
  name_unset (options_of p2 w) = true →
  p2 ∉ (_plugins w).*2 →
  let w1 := (add_plugin regex_match (inr p1) w).2 in
  (name p1 w).1 = Return (class_name p1)
  ∧ (name p2 w).1 = Return (class_name p1)
  ∧ (name p2 w1).1 = Return (class_name p1)
  ∧ class_name p1 ∈ (_plugins w1).*1
  ∧ ∃ w2, add_plugin regex_match (inr p2) w1 = (Return tt, w2)
      ∧ _plugins w2 = _plugins w1
      ∧ _plugin_status w2 = _plugin_status w1
      ∧ (p2 ∉ (_plugins w2).*2)
      ∧ ∀ ev args kw call,
          (p2, call) ∈ invoked (emit_events handler ev args kw w2).2 →
          (p2, call) ∈ invoked w2.
Proof.
  intros Hne Hcls Hu1 Hu2 Hnot. cbn zeta.
  assert (Hr1 : resolved_name p1 w = class_name p1).
  { unfold resolved_name. by rewrite Hu1. }
  destruct (add_plugin_registered p1 w) as [Hkey Hvals].
  set (w1 := (add_plugin regex_match (inr p1) w).2) in *.
  assert (Hr2 : resolved_name p2 w1 = class_name p1).
  { subst w1. rewrite add_plugin_instance. cbn zeta.
    assert (resolved_name p2 (name_cached p1 w) = class_name p1) as Hc.
    { unfold resolved_name, name_cached. rewrite Hu1.
      unfold options_of in *. cbn [set_heap heap].
      destruct (decide (options p1 = options p2)) as [Heq|Hdiff].
      - rewrite Heq, lookup_total_insert_eq. unfold name_unset.
        cbn [opt_name default]. by case_bool_decide.
      - rewrite lookup_total_insert_ne by done.
        by rewrite Hu2. }
    by destruct (od_contains _ _). }
  rewrite !name_spec. cbn [fst].
  split; [by rewrite Hr1|].
  split; [unfold resolved_name; by rewrite Hu2, Hcls|].
  split; [by rewrite Hr2|]. split; [by rewrite <- Hr1|].
  rewrite add_plugin_instance. cbn zeta. rewrite Hr2, <- Hr1.
  rewrite (proj2 (od_contains_true _ _) Hkey).
  eexists. split; [done|].
  cbn [add_log _plugins _plugin_status invoked].
  rewrite name_cached_plugins, name_cached_status.
  assert (Hout : p2 ∉ (_plugins w1).*2).
  { intros Hin. apply Hvals, elem_of_app in Hin as [Hin|Hin]; [done|].
    apply list_elem_of_singleton in Hin. by subst. }
  repeat split; try done.
  intros ev args kw call.
  match goal with |- context [emit_events _ _ _ _ ?w] => set (w2 := w) end.
  destruct (emit_events_frame ev args kw w2)
    as (r & w' & calls & -> & _ & _ & _ & Hp & Hi).
  cbn [snd]. rewrite Hi. intros [Hin|Hin]%elem_of_app; [done|].
  exfalso. apply Hout.
  assert (p2 ∈ calls.*1) as Hc by (by apply (list_elem_of_fmap_2 fst) in Hin).
  destruct Hp as [k Hk].
  assert (p2 ∈ running_plugins w2) as Hrun by (rewrite Hk; set_solver).
  apply running_in_subseteq in Hrun. subst w2.
  cbn [add_log _plugins] in Hrun. by rewrite name_cached_plugins in Hrun.
Qed.

End facts.

(** ** The claims at concrete inputs *)

Lemma two_plugins_lockstep : lockstep two_plugins.
Proof. apply perform_all_lockstep, lockstep_init. Qed.

Lemma three_running_lockstep : lockstep three_running.
Proof. apply perform_all_lockstep, lockstep_init. Qed.


Example two_plugins_registry :
  _plugins two_plugins = [("DingDongPlugin", ding_dong); ("DailyPlugin", daily)]
  ∧ _plugin_status two_plugins
    = {[ "DingDongPlugin" := Running; "DailyPlugin" := Stopped ]}.
Proof. split; by vm_compute. Qed.

Lemma two_plugins_running : running_plugins two_plugins = [ding_dong].
Proof. by vm_compute. Qed.

(** C1 as stated fails: [ding_dong] is registered and running, and
    emitting error with a payload calls no [on_error] on it. *)
Lemma emit_error_not_dispatched :
  let w := perform no_match base_handlers (Add (inr ding_dong)) (init ∅) in
  running_plugins w = [ding_dong]
  ∧ (ding_dong, on_error error_payload)
      ∉ invoked (emit_events base_handlers "error" [error_payload] ∅ w).2.
Proof.
  split; [by vm_compute|].
  vm_compute. apply not_elem_of_nil.
Qed.

Lemma emit_error_heartbeat_ready_does_nothing_witness :
  emit_events base_handlers "heartbeat" [error_payload] ∅ two_plugins
  = (Return tt, two_plugins).
Proof.
  apply (emit_error_heartbeat_ready_does_nothing base_handlers).
  apply list_elem_of_further, list_elem_of_here.
Defined.

(** C2 as stated fails: with a string as its only argument the message
    event does not raise the [WechatyPluginError] that the call without
    arguments raises, but an [AssertionError]. *)
Lemma emit_message_with_a_string :
  (emit_events base_handlers "message" [] ∅ two_plugins).1
    = Raise (WechatyPluginError (args_invalid "message" []))
  ∧ (emit_events base_handlers "message" [Str "hello"] ∅ two_plugins).1
    = Raise AssertionError
  ∧ ∀ text, (emit_events base_handlers "message" [Str "hello"] ∅ two_plugins).1
            ≠ Raise (WechatyPluginError text).
Proof.
  split; [by vm_compute|]. split; [by vm_compute|].
  intros text. vm_compute. discriminate.
Qed.

Lemma emit_message_rejects_witness :
  emit_events base_handlers "message" [] ∅ two_plugins
    = (Raise (WechatyPluginError (args_invalid "message" [])), two_plugins)
  ∧ emit_events base_handlers "message" [Str "hello"] ∅ two_plugins
    = (Raise AssertionError, two_plugins).
Proof.
  split.
  - apply (proj1 (emit_message_rejects base_handlers)). reflexivity.
  - apply (proj2 (emit_message_rejects base_handlers)). reflexivity.
Defined.

(** C3 as stated fails: without arguments, a number within 0..3, the scan
    event raises the arity error; and with the qr code and the status
    only, the call is not accepted and calls [on_scan] on no plugin,
    though [ding_dong] is running. *)
Lemma emit_scan_with_zero_and_two_arguments :
  length (@nil value) ≤ 3
  ∧ (emit_events base_handlers "scan" [] ∅ two_plugins).1
    = Raise (WechatyPluginError (args_invalid "scan" []))
  ∧ running_plugins two_plugins = [ding_dong]
  ∧ (emit_events base_handlers "scan" [Str "qr"; Str "2"] ∅ two_plugins).1
    ≠ Return tt
  ∧ invoked (emit_events base_handlers "scan" [Str "qr"; Str "2"] ∅ two_plugins).2
    = invoked two_plugins.
Proof.
  split; [cbn; lia|]. split; [by vm_compute|]. split; [by vm_compute|].
  split; [by vm_compute|by vm_compute].
Qed.

Lemma emit_scan_arity_witness :
  emit_events base_handlers "scan" [] ∅ two_plugins
    = (Raise (WechatyPluginError (args_invalid "scan" [])), two_plugins)
  ∧ (emit_events base_handlers "scan" [Str "qr"; Str "2"] ∅ two_plugins).1
    ≠ Raise (WechatyPluginError (args_invalid "scan" [Str "qr"; Str "2"]))
  ∧ emit_events base_handlers "scan" [Str "qr"; Str "2"; PyNone] ∅ two_plugins
    = (Return tt,
       dispatched (_plugins two_plugins)
         (on_scan (Str "qr") (Str "2") PyNone) two_plugins).
Proof.
  destruct (emit_scan_arity base_handlers) as (H0 & H12 & H3).
  split; [|split].
  - apply H0. left. reflexivity.
  - apply H12.
    + cbn. lia.
    + exact two_plugins_lockstep.
    + reflexivity.
  - apply H3.
    + reflexivity.
    + reflexivity.
    + exact two_plugins_lockstep.
    + reflexivity.
Defined.



Example middle_stopped_running :
  running_plugins middle_stopped = [daily; ding_dong_again].
Proof. by vm_compute. Qed.

Lemma unregistered_name_raises_witness :
  remove_plugin "Nobody" two_plugins
    = (Raise (WechatyPluginError (plugin_not_exist "Nobody")), two_plugins)
  ∧ plugin_status "Nobody" two_plugins
    = (Raise (WechatyPluginError (plugins_not_exist "Nobody")), two_plugins).
Proof.
  destruct (unregistered_name_raises "Nobody" two_plugins) as (Hr & _ & _ & Hs).
  - exact two_plugins_lockstep.
  - vm_compute. intros H. repeat (apply elem_of_cons in H as [H|H]; [discriminate|]).
    by apply elem_of_nil in H.
  - by split.
Defined.

Lemma second_instance_of_class_ignored_witness :
  let w1 := (add_plugin no_match (inr ding_dong) (init ∅)).2 in
  (name ding_dong (init ∅)).1 = Return "DingDongPlugin"
  ∧ (name ding_dong_again (init ∅)).1 = Return "DingDongPlugin"
  ∧ (name ding_dong_again w1).1 = Return "DingDongPlugin"
  ∧ "DingDongPlugin" ∈ (_plugins w1).*1
  ∧ ∃ w2, add_plugin no_match (inr ding_dong_again) w1 = (Return tt, w2)
      ∧ _plugins w2 = _plugins w1
      ∧ _plugin_status w2 = _plugin_status w1
      ∧ (ding_dong_again ∉ (_plugins w2).*2)
      ∧ ∀ ev args kw call,
          (ding_dong_again, call)
            ∈ invoked (emit_events base_handlers ev args kw w2).2 →
          (ding_dong_again, call) ∈ invoked w2.
Proof.
  apply (second_instance_of_class_ignored no_match base_handlers
           ding_dong ding_dong_again (init ∅)).
  - discriminate.
  - reflexivity.
  - reflexivity.
  - reflexivity.
  - apply not_elem_of_nil.
Defined.

(** ** Mention-text extraction *)

Module MentionFacts.
Import Mention.

(** The six cases of [tests/user_message_test.py]. *)
Example test_mention_text_without_mentions :
  extract "foo bar asd" ∅ [] = "foo bar asd".
Proof. reflexivity. Qed.

Example test_mention_text_without_mentions_in_room :
  extract "beep" fake_room [] = "beep".
Proof. reflexivity. Qed.

Example test_mention_text_with_mentions_in_room :
  extract "@Wechaty User @Test User test message asd" fake_room
    ["wechaty_user"; "test_user"]
  = "test message asd".
Proof. by vm_compute. Qed.

Example test_mention_text_with_mentions_and_alias_in_room :
  extract "123123 @Wechaty User @Test User @Fake Alias kkasd" fake_room
    ["wechaty_user"; "test_user"; "fake_user"]
  = "123123 kkasd".
Proof. by vm_compute. Qed.

Example test_mention_text_with_mentions_and_mismatched_alias :
  extract "123123@Wechaty User @Test User @Fake User beep" fake_room
    ["wechaty_user"; "test_user"; "fake_user"]
  = "123123@Fake User beep".
Proof. by vm_compute. Qed.

Example test_mention_text_with_mentions_but_not_mention_data :
  extract "@Wechaty User @Test User @Fake Alias beep!!" fake_room []
  = "@Wechaty User @Test User @Fake Alias beep!!".
Proof. reflexivity. Qed.

Lemma prefix_at_marker a s :
  String.prefix (String "@" a) (String "@" s) = String.prefix a s.
Proof. reflexivity. Qed.

(** A token that occurs nowhere in a text is a prefix of none of its
    suffixes. *)
Lemma occurs_false_suffix t pre s :
  occurs t (pre +:+ s) = false → String.prefix t s = false.
Proof.
  induction pre as [|c pre IH]; cbn [String.append].
  - destruct s; cbn [occurs]; intros H; by apply orb_false_iff in H as [? _].
  - cbn [occurs]. intros H. apply orb_false_iff in H as [_ H]. by apply IH.
Qed.

(** The pass depends on the names only through the names that match
    after a marker of the text. *)
Lemma remove_mentions_ext names names' skip text :
  (∀ pre s, text = pre +:+ String "@" s →
     filter (λ n, String.prefix n s = true) names
     = filter (λ n, String.prefix n s = true) names') →
  remove_mentions names skip text = remove_mentions names' skip text.
Proof.
  revert skip. induction text as [|c rest IH]; intros skip H; [done|].
  assert (Hrest : ∀ k, remove_mentions names k rest = remove_mentions names' k rest).
  { intros k. apply IH. intros pre s ->. by apply (H (String c pre)). }
  cbn [remove_mentions]. destruct skip as [|k]; [|apply Hrest].
  destruct (Ascii.eqb c "@") eqn:Hc; [|by rewrite Hrest].
  apply Ascii.eqb_eq in Hc as ->.
  unfold longest_match. rewrite (H EmptyString rest) by done.
  destruct (foldl longer None _); by rewrite Hrest.
Qed.

(** Dropping a mentioned id whose name matches nowhere does not change
    the names that match. *)
Lemma matching_names_drop_id dir ids i m s :
  dir !! i = Some m → String.prefix (mention_name m) s = false →
  filter (λ n, String.prefix n s = true) (mention_names dir ids)
  = filter (λ n, String.prefix n s = true)
      (mention_names dir (filter (λ j, j ≠ i) ids)).
Proof.
  intros Hi Hm. unfold mention_names.
  induction ids as [|j ids IH]; [done|].
  rewrite (filter_cons (λ j, j ≠ i)). destruct (decide (j ≠ i)) as [Hne|Heq].
  - cbn [omap list_omap]. destruct (mention_name <$> dir !! j) as [a|]; [|done].
    rewrite !(filter_cons (λ n, String.prefix n s = true)).
    by rewrite IH.
  - apply dec_stable in Heq as ->. cbn [omap list_omap]. rewrite Hi. cbn [fmap option_fmap option_map].
    rewrite (filter_cons (λ n, String.prefix n s = true)).
    by rewrite decide_False by (by rewrite Hm).
Qed.

(** C7: a mentioned member with a room alias whose alias-form token does
    not occur in the text contributes no removal, whether or not the
    name-form token occurs: the result is what the other mentioned ids
    give; and on the text of the repository's test, where the alias of
    fake_user is absent and the two other tokens are present, the result is
    the string the test expects. *)
Theorem absent_alias_removes_nothing :
  (∀ text dir ids i m alias,
     dir !! i = Some m → room_alias m = Some alias →
     occurs (String "@" alias) text = false →
     extract text dir ids
     = match ids with
       | [] => text
       | _ => trim (remove_mentions
                      (mention_names dir (filter (λ j, j ≠ i) ids)) 0 text)
       end)
  ∧ extract "123123@Wechaty User @Test User @Fake User beep" fake_room
      ["wechaty_user"; "test_user"; "fake_user"]
    = "123123@Fake User beep".
Proof.
  split; [|by vm_compute].
  intros text dir ids i m alias Hi Ha Hocc.
  unfold extract. destruct ids as [|j ids]; [done|]. f_equal.
  apply remove_mentions_ext. intros pre s ->.
  apply (matching_names_drop_id dir (j :: ids) i m s Hi).
  unfold mention_name. rewrite Ha.
  rewrite <- prefix_at_marker. by apply (occurs_false_suffix _ pre).
Qed.

(** C8: with no mentioned id the text is returned as it is, for every
    text and every directory, also where the text holds tokens of members
    of the directory, as in the last case of the test. *)
Theorem no_mentioned_id_keeps_text :
  (∀ text dir, extract text dir [] = text)
  ∧ extract "@Wechaty User @Test User @Fake Alias beep!!" fake_room []
    = "@Wechaty User @Test User @Fake Alias beep!!".
Proof. split; reflexivity. Qed.

Lemma absent_alias_removes_nothing_witness :
  extract "123123@Wechaty User @Test User @Fake User beep" fake_room
    ["wechaty_user"; "test_user"; "fake_user"]
  = trim (remove_mentions
            (mention_names fake_room ["wechaty_user"; "test_user"]) 0
            "123123@Wechaty User @Test User @Fake User beep").
Proof.
  apply (proj1 absent_alias_removes_nothing
           "123123@Wechaty User @Test User @Fake User beep" fake_room
           ["wechaty_user"; "test_user"; "fake_user"] "fake_user"
           {| display_name := "Fake User"; room_alias := Some "Fake Alias" |}
           "Fake Alias").
  - reflexivity.
  - reflexivity.
  - reflexivity.
Defined.

End MentionFacts.

(** * Further facts about the registry *)

Lemma od_remove_new {V} k (v : V) (d : OrderedDict V) :
  k ∉ d.*1 → od_remove k (d ++ [(k, v)]) = d.
Proof.
  intros Hk. unfold od_remove. rewrite filter_app.
  rewrite (filter_cons _ (k, v)), decide_False by (cbn; tauto).
  rewrite filter_nil, app_nil_r.
  induction d as [|[k' v'] d IH]; [done|].
  csimpl in Hk. apply not_elem_of_cons in Hk as [Hne Hk].
  rewrite filter_cons. cbn [fst]. rewrite decide_True by done.
  by rewrite IH.
Qed.

Lemma od_remove_absent {V} k (d : OrderedDict V) :
  k ∉ (od_remove k d).*1.
Proof.
  unfold od_remove.
  intros (kv & -> & Hkv%list_elem_of_filter)%list_elem_of_fmap_1. tauto.
Qed.

Section registry_facts.

#[local] Set Default Proof Using "Type".

Context (regex_match : string → bool).
Context (handler : WechatyPlugin → handler_call → option exn).

(** X1: [add_plugin] with a string never registers anything: whichever
    loader the pattern selects finds no plugin, so the call raises
    [WechatyPluginError]; the options, the two dictionaries and the calls
    made are as before, and the log has one more record, of the loader
    that was tried. *)
Theorem add_plugin_by_string_fails s w :
  ∃ w', add_plugin regex_match (inl s) w
          = (Raise (WechatyPluginError (cant_load_plugin s)), w')
    ∧ heap w' = heap w ∧ _plugins w' = _plugins w
    ∧ _plugin_status w' = _plugin_status w ∧ invoked w' = invoked w
    ∧ log w' = log w ++ [(INFO,
                 if regex_match s
                 then "load plugin from github url <" +:+ s +:+ ">"
                 else "load plugin from local file <" +:+ s +:+ ">")].
Proof.
  rewrite add_plugin_string. eexists. split; [reflexivity|]. done.
Qed.

(** X2: the property [name] caches what it resolves: a name set in the
    options and not empty is returned and nothing is written; with no
    name, or the empty one, the class name is returned and stored in the
    options object, the manager being left alone; and whatever the first
    access returned, the next one returns the same and writes nothing. *)
Theorem name_is_cached p w :
  (∀ n, opt_name (options_of p w) = Some n → n ≠ EmptyString →
        name p w = (Return n, w))
  ∧ (name_unset (options_of p w) = true →
     ∃ w1, name p w = (Return (class_name p), w1)
       ∧ opt_name (options_of p w1) = Some (class_name p)
       ∧ _plugins w1 = _plugins w ∧ _plugin_status w1 = _plugin_status w
       ∧ log w1 = log w ∧ invoked w1 = invoked w)
  ∧ (∀ r w1, name p w = (r, w1) → name p w1 = (r, w1)).
Proof.
  split; [|split].
  - intros n Hn Hne. unfold name, bind, gets, name_unset. rewrite Hn.
    rewrite bool_decide_eq_false_2 by done. cbn. by rewrite Hn.
  - intros Hu. rewrite name_spec. unfold resolved_name, name_cached.
    rewrite Hu. eexists. split; [reflexivity|].
    unfold options_of, set_heap. cbn [heap _plugins _plugin_status log invoked].
    by rewrite lookup_total_insert_eq.
  - intros r w1. rewrite !name_spec. intros [= <- <-].
    by rewrite resolved_name_cached, name_cached_idemp.
Qed.

(** X3: two plugins that refer to one options object share the name: when
    no name is set in it, once the name of the first has been read the
    second answers to the class name of the first and not to its own. *)
Theorem shared_options_share_the_name p q w :
  options p = options q →
  name_unset (options_of p w) = true →
  class_name p ≠ EmptyString →
  ∃ w1, name p w = (Return (class_name p), w1)
    ∧ name q w1 = (Return (class_name p), w1).
Proof.
  intros Hpq Hu Hne. rewrite name_spec. eexists. split.
  - unfold resolved_name. by rewrite Hu.
  - unfold name_cached. rewrite Hu.
    unfold name, bind, gets, options_of, name_unset. cbn.
    rewrite <- Hpq, !lookup_total_insert_eq. cbn.
    rewrite bool_decide_eq_false_2 by done. cbn.
    by rewrite lookup_total_insert_eq.
Qed.

(** X4: on a manager in lock-step, removing a registered name returns,
    takes the entry of the name out of both dictionaries and leaves the
    other entries in their order with their status; the dictionaries stay
    in lock-step, and asking the status of the name, or removing it a
    second time, now raises. *)
Theorem remove_plugin_registered n w :
  lockstep w → n ∈ (_plugins w).*1 →
  ∃ w', remove_plugin n w = (Return tt, w')
    ∧ _plugins w' = filter (λ kv, kv.1 ≠ n) (_plugins w)
    ∧ _plugin_status w' = delete n (_plugin_status w)
    ∧ heap w' = heap w ∧ log w' = log w ∧ invoked w' = invoked w
    ∧ lockstep w'
    ∧ plugin_status n w'
      = (Raise (WechatyPluginError (plugins_not_exist n)), w')
    ∧ remove_plugin n w'
      = (Raise (WechatyPluginError (plugin_not_exist n)), w').
Proof.
  intros Hl Hn. destruct (lockstep_present w n Hl Hn) as [Hc [s Hs]].
  rewrite remove_plugin_spec, Hc, Hs. eexists. split; [done|].
  set (w' := set_plugin_status _ _).
  assert (Hl' : lockstep w').
  { unfold lockstep in *. subst w'. cbn.
    by rewrite od_remove_keys, dom_delete_L, Hl. }
  assert (Hout : n ∉ (_plugins w').*1) by apply od_remove_absent.
  destruct (lockstep_absent w' n Hl' Hout) as [Hc' Hs'].
  repeat split; try done.
  - by rewrite plugin_status_spec, Hc', Hs'.
  - by rewrite remove_plugin_spec, Hc'.
Qed.

(** X5: adding a plugin under a name that is not registered and removing
    that name again gives back the two dictionaries there were. *)
Theorem add_then_remove_restores p w :
  lockstep w → resolved_name p w ∉ (_plugins w).*1 →
  ∃ w1 w2, add_plugin regex_match (inr p) w = (Return tt, w1)
    ∧ remove_plugin (resolved_name p w) w1 = (Return tt, w2)
    ∧ _plugins w2 = _plugins w ∧ _plugin_status w2 = _plugin_status w.
Proof.
  intros Hl Hn. destruct (lockstep_absent w _ Hl Hn) as [Hc Hs].
  rewrite add_plugin_instance. cbn zeta. rewrite Hc.
  eexists _, _. split; [done|].
  rewrite remove_plugin_spec.
  cbn [set_plugin_status set_plugins _plugins _plugin_status].
  rewrite name_cached_plugins, name_cached_status.
  rewrite od_setitem_new by done.
  assert (od_contains (resolved_name p w)
            (_plugins w ++ [(resolved_name p w, p)]) = true) as ->.
  { apply od_contains_true. rewrite fmap_app. apply elem_of_app. right.
    apply list_elem_of_here. }
  rewrite lookup_insert_eq. split; [done|]. cbn. split.
  - by apply od_remove_new.
  - by rewrite delete_insert_eq, delete_id.
Qed.

(** X6: a registered plugin that is removed and added again goes to the
    end of the order of dispatch and is running, whatever its position
    and its status were. *)
Theorem remove_then_add_goes_last n p w :
  lockstep w → n ∈ (_plugins w).*1 → resolved_name p w = n →
  ∃ w1 w2, remove_plugin n w = (Return tt, w1)
    ∧ add_plugin regex_match (inr p) w1 = (Return tt, w2)
    ∧ _plugins w2 = filter (λ kv, kv.1 ≠ n) (_plugins w) ++ [(n, p)]
    ∧ _plugin_status w2 = <[n := Running]> (_plugin_status w).
Proof.
  intros Hl Hn Hr. destruct (lockstep_present w n Hl Hn) as [Hc [s Hs]].
  rewrite remove_plugin_spec, Hc, Hs. eexists _, _. split; [done|].
  rewrite add_plugin_instance. cbn zeta.
  set (w1 := set_plugin_status _ _).
  assert (resolved_name p w1 = n) as -> by (by rewrite <- Hr).
  assert (Hout : n ∉ (_plugins w1).*1) by apply od_remove_absent.
  rewrite (proj2 (od_contains_false _ _) Hout).
  split; [done|].
  cbn [set_plugin_status set_plugins _plugins _plugin_status].
  rewrite name_cached_plugins, name_cached_status, od_setitem_new by done.
  subst w1. cbn. by rewrite insert_delete_eq.
Qed.

(** X7: stopping a plugin that has a status sets the status to [Stopped]
    and touches no other entry; stopping it again returns as well, with
    the same dictionaries, and writes the warning that it has stopped. *)
Theorem stop_plugin_twice n s w :
  _plugin_status w !! n = Some s →
  ∃ w1 w2, stop_plugin n w = (Return tt, w1)
    ∧ _plugin_status w1 = <[n := Stopped]> (_plugin_status w)
    ∧ _plugins w1 = _plugins w
    ∧ stop_plugin n w1 = (Return tt, w2)
    ∧ _plugin_status w2 = _plugin_status w1 ∧ _plugins w2 = _plugins w1
    ∧ log w2 = log w1 ++ [(INFO, "stopping the plugin <" +:+ n +:+ ">");
                          (WARNING, "plugins <" +:+ n +:+ "> has stopped")].
Proof.
  intros Hs. rewrite stop_plugin_spec. cbn zeta.
  rewrite (status_known n s w Hs), Hs. eexists _, _. split; [done|].
  set (w1 := set_plugin_status _ _).
  assert (Hs1 : _plugin_status w1 !! n = Some Stopped).
  { subst w1. cbn. apply lookup_insert_eq. }
  split; [|split].
  - subst w1. by destruct (decide (s = Stopped)).
  - subst w1. by destruct (decide (s = Stopped)).
  - rewrite stop_plugin_spec. cbn zeta.
    rewrite (status_known n Stopped w1 Hs1), Hs1.
    rewrite decide_True by done. split; [done|]. cbn. split; [|split].
    + subst w1. cbn. by rewrite insert_insert_eq.
    + done.
    + by rewrite <- app_assoc.
Qed.

(** X8: [plugin_status] answers with what the last of [start_plugin] and
    [stop_plugin] on the name has set, and the answer for any other name
    is what it was. *)
Theorem plugin_status_after_start_stop n s w :
  _plugin_status w !! n = Some s →
  (plugin_status n (start_plugin n w).2).1 = Return Running
  ∧ (plugin_status n (stop_plugin n w).2).1 = Return Stopped
  ∧ ∀ m, m ≠ n →
      (plugin_status m (start_plugin n w).2).1 = (plugin_status m w).1
      ∧ (plugin_status m (stop_plugin n w).2).1 = (plugin_status m w).1.
Proof.
  intros Hs. rewrite start_plugin_spec, stop_plugin_spec. cbn zeta.
  rewrite (status_known n s w Hs), Hs. cbn [snd].
  split; [|split].
  - apply (f_equal fst (plugin_status_some n Running _ (lookup_insert_eq _ _ _))).
  - match goal with |- (plugin_status n ?w1).1 = _ =>
      apply (f_equal fst (plugin_status_some n Stopped w1
               ltac:(destruct (decide (s = Stopped)); apply lookup_insert_eq)))
    end.
  - intros m Hm. rewrite !plugin_status_spec. cbn [fst]. split.
    + cbn [set_plugin_status add_log _plugins _plugin_status].
      by rewrite lookup_insert_ne.
    + destruct (decide (s = Stopped));
        cbn [set_plugin_status add_log _plugins _plugin_status];
        by rewrite lookup_insert_ne.
Qed.

End registry_facts.

(** ** The facts about the registry at concrete inputs *)

Lemma name_is_cached_witness :
  ∃ w1, name ding_dong (init ∅) = (Return "DingDongPlugin", w1)
    ∧ opt_name (options_of ding_dong w1) = Some "DingDongPlugin"
    ∧ name ding_dong w1 = (Return "DingDongPlugin", w1).
Proof.
  destruct (name_is_cached ding_dong (init ∅)) as (_ & Hunset & Hagain).
  destruct (Hunset eq_refl) as (w1 & Hname & Hopt & _).
  exists w1. split; [exact Hname|]. split; [exact Hopt|].
  exact (Hagain _ _ Hname).
Defined.

Lemma shared_options_share_the_name_witness :
  ∃ w1, name ding_dong (init ∅) = (Return "DingDongPlugin", w1)
    ∧ name shares_options w1 = (Return "DingDongPlugin", w1).
Proof.
  apply (shared_options_share_the_name ding_dong shares_options (init ∅)).
  - reflexivity.
  - reflexivity.
  - discriminate.
Defined.

Lemma daily_registered : "DailyPlugin" ∈ (_plugins two_plugins).*1.
Proof. vm_compute. apply list_elem_of_further, list_elem_of_here. Qed.

Lemma ding_dong_registered : "DingDongPlugin" ∈ (_plugins two_plugins).*1.
Proof. vm_compute. apply list_elem_of_here. Qed.

Lemma remove_plugin_registered_witness :
  ∃ w', remove_plugin "DailyPlugin" two_plugins = (Return tt, w')
    ∧ _plugins w' = filter (λ kv, kv.1 ≠ "DailyPlugin") (_plugins two_plugins)
    ∧ _plugin_status w' = delete "DailyPlugin" (_plugin_status two_plugins)
    ∧ heap w' = heap two_plugins ∧ log w' = log two_plugins
    ∧ invoked w' = invoked two_plugins
    ∧ lockstep w'
    ∧ plugin_status "DailyPlugin" w'
      = (Raise (WechatyPluginError (plugins_not_exist "DailyPlugin")), w')
    ∧ remove_plugin "DailyPlugin" w'
      = (Raise (WechatyPluginError (plugin_not_exist "DailyPlugin")), w').
Proof.
  apply (remove_plugin_registered "DailyPlugin" two_plugins).
  - exact two_plugins_lockstep.
  - exact daily_registered.
Defined.

Lemma add_then_remove_restores_witness :
  ∃ w1 w2, add_plugin no_match (inr weather) two_plugins = (Return tt, w1)
    ∧ remove_plugin "WeatherPlugin" w1 = (Return tt, w2)
    ∧ _plugins w2 = _plugins two_plugins
    ∧ _plugin_status w2 = _plugin_status two_plugins.
Proof.
  apply (add_then_remove_restores no_match weather two_plugins).
  - exact two_plugins_lockstep.
  - vm_compute. intros H.
    repeat (apply elem_of_cons in H as [H|H]; [discriminate|]).
    by apply elem_of_nil in H.
Defined.

Lemma remove_then_add_goes_last_witness :
  ∃ w1 w2, remove_plugin "DingDongPlugin" two_plugins = (Return tt, w1)
    ∧ add_plugin no_match (inr ding_dong) w1 = (Return tt, w2)
    ∧ _plugins w2
      = filter (λ kv, kv.1 ≠ "DingDongPlugin") (_plugins two_plugins)
        ++ [("DingDongPlugin", ding_dong)]
    ∧ _plugin_status w2
      = <["DingDongPlugin" := Running]> (_plugin_status two_plugins).
Proof.
  apply (remove_then_add_goes_last no_match "DingDongPlugin" ding_dong two_plugins).
  - exact two_plugins_lockstep.
  - exact ding_dong_registered.
  - by vm_compute.
Defined.

Lemma stop_plugin_twice_witness :
  ∃ w1 w2, stop_plugin "DingDongPlugin" two_plugins = (Return tt, w1)
    ∧ _plugin_status w1
      = <["DingDongPlugin" := Stopped]> (_plugin_status two_plugins)
    ∧ _plugins w1 = _plugins two_plugins
    ∧ stop_plugin "DingDongPlugin" w1 = (Return tt, w2)
    ∧ _plugin_status w2 = _plugin_status w1 ∧ _plugins w2 = _plugins w1
    ∧ log w2
      = log w1 ++ [(INFO, "stopping the plugin <DingDongPlugin>");
                   (WARNING, "plugins <DingDongPlugin> has stopped")].
Proof.
  apply (stop_plugin_twice "DingDongPlugin" Running two_plugins).
  by vm_compute.
Defined.

Lemma plugin_status_after_start_stop_witness :
  (plugin_status "DailyPlugin" (start_plugin "DailyPlugin" two_plugins).2).1
    = Return Running
  ∧ (plugin_status "DailyPlugin" (stop_plugin "DailyPlugin" two_plugins).2).1
    = Return Stopped
  ∧ ∀ m, m ≠ "DailyPlugin" →
      (plugin_status m (start_plugin "DailyPlugin" two_plugins).2).1
        = (plugin_status m two_plugins).1
      ∧ (plugin_status m (stop_plugin "DailyPlugin" two_plugins).2).1
        = (plugin_status m two_plugins).1.
Proof.
  apply (plugin_status_after_start_stop "DailyPlugin" Stopped two_plugins).
  by vm_compute.
Defined.

(** * Further facts about [emit_events] *)

Section emit_facts.

#[local] Set Default Proof Using "Type".

Context (handler : WechatyPlugin → handler_call → option exn).

Lemma for_items_log items call w :
  ∃ l, log (for_items handler items call w).2 = log w ++ l.
Proof.
  revert w. induction items as [|[n p] items IH]; intros w.
  - exists []. cbn. by rewrite app_nil_r.
  - cbn [for_items]. unfold bind at 1. cbn [log_info modify].
    set (w1 := add_log _ w). unfold bind at 1.
    rewrite plugin_status_spec.
    destruct (_ && _); [by eexists [_]|].
    destruct (_plugin_status w1 !! n) as [s|]; [|by eexists [_]].
    destruct s.
    + rewrite decide_True by done. unfold bind at 1, await, bind at 1.
      cbn [modify]. destruct (handler p call) as [e|]; [by eexists [_]|].
      cbn [ret]. destruct (IH (add_invoked (p, call) w1)) as [l Hl].
      exists ((INFO, "emit " +:+ n +:+ "-plugin ...") :: l).
      rewrite Hl. cbn. by rewrite <- app_assoc.
    + rewrite decide_False by done. unfold bind at 1. cbn [ret].
      destruct (IH w1) as [l Hl].
      exists ((INFO, "emit " +:+ n +:+ "-plugin ...") :: l).
      rewrite Hl. cbn. by rewrite <- app_assoc.
Qed.

(** X9: whatever the event, the arguments and the handlers, and whether
    it returns or raises, [emit_events] changes neither the options
    objects nor either dictionary of the manager; it only appends to the
    log and to the calls made. *)
Theorem emit_events_keeps_the_registry ev args kw w :
  let w' := (emit_events handler ev args kw w).2 in
  heap w' = heap w ∧ _plugins w' = _plugins w
  ∧ _plugin_status w' = _plugin_status w
  ∧ (∃ l, log w' = log w ++ l)
  ∧ (∃ calls, invoked w' = invoked w ++ calls).
Proof.
  cbn zeta.
  destruct (emit_events_frame handler ev args kw w)
    as (r & w' & calls & Heq & Hh & Hp & Hs & _ & Hi).
  rewrite Heq. cbn [snd]. repeat split; try done; [|by exists calls].
  revert Heq.
  destruct (emit_events_cases handler ev args kw w)
    as [[_ ->]|[[e ->]|(call & _ & ->)]].
  - intros [= _ <-]. exists []. by rewrite app_nil_r.
  - intros [= _ <-]. exists []. by rewrite app_nil_r.
  - unfold for_plugins, bind, gets. intros Heq.
    destruct (for_items_log (_plugins w) call w) as [l Hl].
    rewrite Heq in Hl. by exists l.
Qed.

Lemma for_items_raise items call pre p post e w :
  (∀ kv, kv ∈ items → is_Some (_plugin_status w !! kv.1)) →
  running_in (_plugin_status w) items = pre ++ p :: post →
  (∀ q, q ∈ pre → handler q call = None) →
  handler p call = Some e →
  ∃ w', for_items handler items call w = (Raise e, w')
    ∧ invoked w' = invoked w ++ ((λ q, (q, call)) <$> pre ++ [p])
    ∧ _plugins w' = _plugins w ∧ _plugin_status w' = _plugin_status w.
Proof.
  revert pre w. induction items as [|[n q] items IH]; intros pre w Hst Hrun Hpre He.
  - by destruct pre.
  - destruct (Hst (n, q)) as [s Hs]; [left|]. cbn [fst] in Hs.
    rewrite running_in_cons in Hrun.
    cbn [for_items]. unfold bind at 1. cbn [log_info modify].
    set (w1 := add_log _ w). unfold bind at 1.
    rewrite (plugin_status_some n s) by done. unfold bind at 1.
    assert (Hst' : ∀ kv, kv ∈ items → is_Some (_plugin_status w !! kv.1)).
    { intros kv Hkv. apply Hst. by right. }
    destruct s.
    + rewrite decide_True in Hrun by done. rewrite decide_True by done.
      unfold await, bind at 1. cbn [modify].
      destruct pre as [|q' pre]; cbn [app] in Hrun;
        injection Hrun as -> Hrun.
      * rewrite He. by eexists.
      * rewrite (Hpre q') by left. cbn [ret].
        destruct (IH pre (add_invoked (q', call) w1)) as (w' & -> & Hi & ? & ?);
          try done.
        { intros r Hr. apply Hpre. by right. }
        eexists. split; [done|]. rewrite Hi. cbn. by rewrite <- app_assoc.
    + rewrite decide_False in Hrun by (rewrite Hs; done).
      rewrite decide_False by done. cbn [ret].
      destruct (IH pre w1) as (w' & -> & Hi & ? & ?); try done.
      by eexists.
Qed.

(** X10: an exception of a handler is not caught: when an accepted call
    reaches a running plugin whose handler raises, the handlers of the
    running plugins registered before it having returned, [emit_events]
    raises that exception; the handlers called are those up to and
    including the one that raised, and the running plugins registered
    after it are not called. *)
Theorem emit_events_stops_at_raising_handler ev args kw call pre p post e w :
  lockstep w → accepted ev args call →
  running_plugins w = pre ++ p :: post →
  (∀ q, q ∈ pre → handler q call = None) →
  handler p call = Some e →
  ∃ w', emit_events handler ev args kw w = (Raise e, w')
    ∧ invoked w' = invoked w ++ ((λ q, (q, call)) <$> pre ++ [p])
    ∧ _plugins w' = _plugins w ∧ _plugin_status w' = _plugin_status w.
Proof.
  intros Hl Hacc Hrun Hpre He.
  rewrite (accepted_dispatches handler ev args kw call w Hacc).
  unfold for_plugins, bind, gets.
  apply (for_items_raise _ _ pre p post); try done.
  intros kv Hkv. eapply lockstep_present; [done|].
  by apply list_elem_of_fmap_2.
Qed.

(** X11: for the events friendship, login and room-invite (one
    argument), room-join and room-leave (four) and room-topic (five), a
    call with any other number of positional arguments raises
    [WechatyPluginError] with the arguments in its text, before the world
    is touched. *)
Theorem emit_events_wrong_arity ev label types args kw w :
  contract ev = Some (label, types) →
  length args ≠ length types →
  emit_events handler ev args kw w
  = (Raise (WechatyPluginError (args_invalid label args)), w).
Proof.
  unfold contract. intros Hc Hlen.
  repeat case_decide; simplify_eq; cbn [length] in Hlen;
    unfold emit_events;
    repeat (rewrite decide_False by done); rewrite decide_True by done;
    rewrite check_spec;
    (destruct (not_ args || _) eqn:E; [done|]).
  all: first [ apply (arity_shape 1) in E | apply (arity_shape 4) in E
             | apply (arity_shape 5) in E ]; done.
Qed.

(** X12: for the same events, a call with the right number of arguments
    of which one is not of the type its position expects fails the
    assertion of that position: it raises [AssertionError], before the
    world is touched. *)
Theorem emit_events_wrong_type ev label types args kw w :
  contract ev = Some (label, types) →
  length args = length types →
  ¬ Forall2 (λ v t, isinstance v t = true) args types →
  emit_events handler ev args kw w = (Raise AssertionError, w).
Proof.
  unfold contract. intros Hc Hlen Hty.
  repeat case_decide; simplify_eq; cbn [length] in Hlen;
    unfold emit_events;
    repeat (rewrite decide_False by done); rewrite decide_True by done;
    rewrite check_spec;
    do 6 (try destruct args as [|? args]); try discriminate Hlen;
    (destruct (not_ _ || _) eqn:E; [by vm_compute in E|]);
    run_checks; try done.
  all: exfalso; apply Hty;
    repeat (constructor; [assumption|]); constructor.
Qed.

(** X13: a message passed by keyword only gets past the guard of the
    message branch, which accepts a keyword msg in place of a positional
    argument, and then fails on [args[0]]: the call raises [IndexError]
    and no handler sees the message. *)
Theorem emit_message_by_keyword kw m w :
  kw !! "msg" = Some m →
  emit_events handler "message" [] kw w = (Raise IndexError, w).
Proof.
  intros Hkw. unfold emit_events. rewrite decide_True by done.
  rewrite check_spec, Hkw. reflexivity.
Qed.

(** X14: a scan event with one or two positional arguments passes the
    arity check and then fails before any handler is called: with an
    [AssertionError] if one of the arguments is not a string, with an
    [IndexError] on the missing argument otherwise. *)
Theorem emit_scan_without_data args kw w :
  1 ≤ length args ≤ 2 →
  emit_events handler "scan" args kw w
  = (Raise (if forallb (λ v, isinstance v BuiltinStr) args
            then IndexError else AssertionError), w).
Proof.
  intros Hlen. unfold emit_events.
  repeat (rewrite decide_False by done). rewrite decide_True by done.
  rewrite check_spec.
  destruct (not_ args || _ || _) eqn:E.
  { apply scan_arity_rejected in E. lia. }
  destruct args as [|a1 [|a2 [|? ?]]]; cbn [length] in Hlen; try lia.
  all: run_checks; cbn [forallb]; rewrite ?Hinst, ?Hinst0; done.
Qed.

(** X15: an event name that is none of message, friendship, login,
    room-invite, room-join, room-leave, room-topic and scan falls
    through every branch: the call returns and the world is as it was.
    So it is with logout, for which plugins have a handler. *)
Theorem emit_events_unknown_event :
  (∀ ev args kw w, ev ∉ event_names →
     emit_events handler ev args kw w = (Return tt, w))
  ∧ (∀ args kw w, emit_events handler "logout" args kw w = (Return tt, w)).
Proof.
  split; [|done].
  intros ev args kw w Hev. unfold emit_events, event_names in *.
  repeat (case_decide;
          [exfalso; apply Hev; subst; repeat first
             [apply list_elem_of_here | apply list_elem_of_further]|]).
  done.
Qed.

End emit_facts.

(** ** The facts about [emit_events] at concrete inputs *)

Lemma emit_events_stops_at_raising_handler_witness :
  ∃ w', emit_events ding_dong_raises "message" [Instance Message 5] ∅
          three_running
        = (Raise (OtherException "boom"), w')
    ∧ invoked w'
      = invoked three_running
        ++ ((λ q, (q, on_message (Instance Message 5))) <$> [daily] ++ [ding_dong])
    ∧ _plugins w' = _plugins three_running
    ∧ _plugin_status w' = _plugin_status three_running.
Proof.
  apply (emit_events_stops_at_raising_handler ding_dong_raises
           "message" [Instance Message 5] ∅ (on_message (Instance Message 5))
           [daily] ding_dong [ding_dong_again]).
  - exact three_running_lockstep.
  - constructor. reflexivity.
  - by vm_compute.
  - intros q ->%list_elem_of_singleton. reflexivity.
  - reflexivity.
Defined.

Lemma emit_events_wrong_arity_witness :
  emit_events base_handlers "room-leave" [Instance Room 8] ∅ two_plugins
  = (Raise (WechatyPluginError (args_invalid "room-join" [Instance Room 8])),
     two_plugins).
Proof.
  apply (emit_events_wrong_arity base_handlers "room-leave" "room-join"
           [Class Room; BuiltinList; Class Contact; Class Datetime]).
  - reflexivity.
  - cbn. lia.
Defined.

Lemma emit_events_wrong_type_witness :
  emit_events base_handlers "login" [Str "contact"] ∅ two_plugins
  = (Raise AssertionError, two_plugins).
Proof.
  apply (emit_events_wrong_type base_handlers "login" "login event"
           [Class Contact]).
  - reflexivity.
  - reflexivity.
  - intros [H _]%Forall2_cons_1. discriminate H.
Defined.

Lemma emit_message_by_keyword_witness :
  emit_events base_handlers "message" [] {[ "msg" := Instance Message 5 ]}
    two_plugins
  = (Raise IndexError, two_plugins).
Proof.
  apply (emit_message_by_keyword base_handlers _ (Instance Message 5)).
  by vm_compute.
Defined.

Lemma emit_scan_without_data_witness :
  emit_events base_handlers "scan" [Str "qr"; Str "2"] ∅ two_plugins
  = (Raise IndexError, two_plugins).
Proof.
  apply (emit_scan_without_data base_handlers [Str "qr"; Str "2"]).
  cbn. lia.
Defined.

Lemma emit_events_unknown_event_witness :
  emit_events base_handlers "dong" [Str "ding"] ∅ two_plugins
  = (Return tt, two_plugins).
Proof.
  apply (proj1 (emit_events_unknown_event base_handlers)).
  unfold event_names. intros H.
  repeat (apply elem_of_cons in H as [H|H]; [discriminate|]).
  by apply elem_of_nil in H.
Defined.

(** * The names of the registered plugins *)

Lemma names_kept_init h : names_kept (init h).
Proof. intros k p Hin. by apply elem_of_nil in Hin. Qed.

Lemma names_kept_cached p w : names_kept w → names_kept (name_cached p w).
Proof.
  intros Hk k q Hin Hne. rewrite name_cached_plugins in Hin.
  specialize (Hk k q Hin Hne). unfold name_cached.
  destruct (name_unset (options_of p w)) eqn:Hu; [|done].
  unfold options_of in *. cbn [set_heap heap].
  destruct (decide (options p = options q)) as [Heq|Hdiff].
  - exfalso. rewrite Heq in Hu. unfold name_unset in Hu. rewrite Hk in Hu.
    by apply bool_decide_eq_true in Hu.
  - by rewrite lookup_total_insert_ne.
Qed.

Lemma names_kept_same w w' :
  heap w' = heap w → _plugins w' ⊆ _plugins w → names_kept w → names_kept w'.
Proof.
  intros Hh Hp Hk k q Hin Hne. unfold options_of. rewrite Hh.
  apply Hk; [by apply Hp|done].
Qed.

Lemma resolved_name_stored p w :
  resolved_name p w ≠ EmptyString →
  opt_name (options_of p (name_cached p w)) = Some (resolved_name p w).
Proof.
  unfold resolved_name, name_cached.
  destruct (name_unset (options_of p w)) eqn:Hu.
  - intros _. unfold options_of. cbn [set_heap heap].
    by rewrite lookup_total_insert_eq.
  - intros _. unfold name_unset in Hu.
    by destruct (opt_name (options_of p w)).
Qed.

Section names.

#[local] Set Default Proof Using "Type".

Context (regex_match : string → bool).
Context (handler : WechatyPlugin → handler_call → option exn).

Lemma perform_names_kept op w :
  names_kept w → names_kept (perform regex_match handler op w).
Proof.
  intros Hk. destruct op as [[s|p]|n|n|n|n|ev args kw]; cbn [perform].
  - rewrite add_plugin_string. by apply (names_kept_same w).
  - rewrite add_plugin_instance. cbn zeta.
    apply (names_kept_cached p) in Hk.
    destruct (od_contains _ _) eqn:E; cbn [snd].
    + by apply (names_kept_same (name_cached p w)).
    + apply od_contains_false in E.
      intros k q. cbn [set_plugin_status set_plugins _plugins].
      rewrite od_setitem_new by (by rewrite name_cached_plugins).
      intros [Hin|Hin]%elem_of_app Hne.
      * by apply Hk.
      * apply list_elem_of_singleton in Hin as [= -> ->].
        by apply resolved_name_stored.
  - rewrite remove_plugin_spec. destruct (od_contains n (_plugins w)); [|done].
    destruct (_plugin_status w !! n); cbn [snd];
      apply (names_kept_same w); try done;
      intros kv Hkv%list_elem_of_filter; tauto.
  - rewrite start_plugin_spec. cbn zeta.
    destruct (_ && _); by apply (names_kept_same w).
  - rewrite stop_plugin_spec. cbn zeta.
    destruct (_ && _); [by apply (names_kept_same w)|].
    destruct (_plugin_status w !! n) as [s|]; [|by apply (names_kept_same w)].
    destruct (decide (s = Stopped)); by apply (names_kept_same w).
  - by rewrite plugin_status_spec.
  - destruct (emit_events_frame handler ev args kw w)
      as (r & w' & l & -> & Hh & Hp & _).
    cbn [snd]. apply (names_kept_same w); [done| |done]. by rewrite Hp.
Qed.

Lemma perform_all_names_kept ops w :
  names_kept w → names_kept (perform_all regex_match handler ops w).
Proof.
  revert w. induction ops as [|op ops IH]; intros w Hw; [exact Hw|].
  cbn. apply IH. by apply perform_names_kept.
Qed.

(** X16: a registered plugin keeps its name: after any sequence of
    operations on a new manager, the property [name] of every plugin
    registered under a name that is not empty returns the name it is
    registered under, and writes nothing. *)
Theorem registered_plugin_keeps_its_name h ops k p :
  let w := perform_all regex_match handler ops (init h) in
  (k, p) ∈ _plugins w → k ≠ EmptyString → name p w = (Return k, w).
Proof.
  cbn zeta. intros Hin Hne.
  pose proof (perform_all_names_kept ops (init h) (names_kept_init h) k p Hin Hne)
    as Hk.
  rewrite name_spec. unfold resolved_name, name_cached, name_unset.
  rewrite Hk. by rewrite bool_decide_eq_false_2.
Qed.

End names.

Lemma registered_plugin_keeps_its_name_witness :
  name daily two_plugins = (Return "DailyPlugin", two_plugins).
Proof.
  apply (registered_plugin_keeps_its_name no_match base_handlers ∅
           [Add (inr ding_dong); Add (inr daily); Stop "DailyPlugin"]
           "DailyPlugin" daily).
  - vm_compute. apply list_elem_of_further, list_elem_of_here.
  - discriminate.
Defined.

(** * The advertised endpoint *)

Lemma prefix_append p s t :
  String.prefix p s = true → String.prefix p (s +:+ t) = true.
Proof.
  revert s. induction p as [|a p IH]; intros s.
  - intros _. by destruct (s +:+ t).
  - destruct s as [|b s]; [done|]. simpl.
    destruct (ascii_dec a b); [apply IH|done].
Qed.

(** X17: the endpoint the manager advertises always starts with http: a
    host that starts with these four letters is taken as it is, with the
    port after a colon, also when no scheme follows them, and any other
    host is given the scheme http. *)
Theorem server_endpoint_starts_with_http host port :
  String.prefix "http" (server_endpoint (host, port)) = true
  ∧ (String.prefix "http" host = true →
     server_endpoint (host, port) = host +:+ ":" +:+ str_of_int port)
  ∧ (String.prefix "http" host = false →
     server_endpoint (host, port)
     = "http://" +:+ host +:+ ":" +:+ str_of_int port).
Proof.
  unfold server_endpoint. cbn [fst snd].
  destruct (String.prefix "http" host) eqn:E; cbn [negb].
  - change (EmptyString +:+ host +:+ ":" +:+ str_of_int port)
      with (host +:+ ":" +:+ str_of_int port).
    split; [|by split]. by apply prefix_append.
  - split; [reflexivity|by split].
Qed.

Lemma server_endpoint_starts_with_http_witness :
  server_endpoint ("0.0.0.0", 5000%Z) = "http://0.0.0.0:5000"
  ∧ server_endpoint ("httpbin", 80%Z) = "httpbin:80".
Proof.
  split.
  - apply (proj2 (proj2 (server_endpoint_starts_with_http "0.0.0.0" 5000))).
    reflexivity.
  - apply (proj1 (proj2 (server_endpoint_starts_with_http "httpbin" 80))).
    reflexivity.
Defined.

(** * The listing of the routes *)

Module RoutesFacts.
Import Routes.

Lemma elem_of_insert_by {A} (key : A → string) x y l :
  y ∈ insert_by key x l ↔ y = x ∨ y ∈ l.
Proof.
  induction l as [|z l IH]; cbn.
  - rewrite list_elem_of_singleton, elem_of_nil. tauto.
  - destruct (String.leb _ _); rewrite !elem_of_cons, ?IH; tauto.
Qed.

Lemma elem_of_sorted {A} (key : A → string) y l : y ∈ sorted key l ↔ y ∈ l.
Proof.
  unfold sorted. induction l as [|x l IH]; [done|].
  cbn. rewrite elem_of_insert_by, elem_of_cons, IH. tauto.
Qed.

Lemma max_nonempty l : l ≠ [] → ∃ n, max_ l = Return n.
Proof. destruct l; [done|]. by eexists. Qed.

Lemma filter_none {A} (P : A → Prop) `{∀ x, Decision (P x)} (l : list A) :
  (∀ x, x ∈ l → ¬ P x) → filter P l = [].
Proof.
  induction l as [|x l IH]; intros Hl; [done|].
  rewrite filter_cons, decide_False by (apply Hl; left).
  apply IH. intros y Hy. apply Hl. by right.
Qed.

Lemma fmap_sorted_nonempty {A B} (key : A → string) (f : A → B) l :
  l ≠ [] → f <$> sorted key l ≠ [].
Proof.
  destruct l as [|x l]; [done|]. intros _ Hnil%fmap_nil_inv.
  assert (x ∈ sorted key (x :: l)) as Hx by (apply elem_of_sorted; left).
  rewrite Hnil in Hx. by apply elem_of_nil in Hx.
Qed.

(** X18: the listing of the routes answers an empty URL map with the
    text that no routes were registered; for a map that is not empty it
    returns a text as soon as one rule has methods, and it raises a
    [ValueError], from the maximum of an empty sequence, when no rule
    has. *)
Theorem list_routes_txt_outcome rules :
  (rules = [] → _list_routes_txt rules = Return "No routes were registered.")
  ∧ (rules ≠ [] → (∀ r, r ∈ rules → has_methods r = false) →
     _list_routes_txt rules = Raise (OtherException "ValueError"))
  ∧ (∀ r, r ∈ rules → has_methods r = true →
     ∃ txt, _list_routes_txt rules = Return txt).
Proof.
  split; [by intros ->|]. split.
  - intros Hne Hall. unfold _list_routes_txt.
    rewrite bool_decide_eq_false_2 by (by destruct rules).
    destruct (max_nonempty (String.length ∘ endpoint <$> sorted endpoint rules))
      as [w0 ->]; [by apply fmap_sorted_nonempty|].
    rewrite (filter_none (λ r, has_methods r = true)); [done|].
    intros r Hr%elem_of_sorted. rewrite (Hall r Hr). done.
  - intros r Hr Hm. unfold _list_routes_txt.
    assert (rules ≠ []) as Hne by (intros ->; by apply elem_of_nil in Hr).
    rewrite bool_decide_eq_false_2 by (by destruct rules).
    destruct (max_nonempty (String.length ∘ endpoint <$> sorted endpoint rules))
      as [w0 ->]; [by apply fmap_sorted_nonempty|].
    destruct (max_nonempty (String.length ∘ rule <$> sorted endpoint rules))
      as [w3 ->]; [by apply fmap_sorted_nonempty|].
    match goal with |- context [max_ (String.length <$> ?l)] =>
      destruct (max_nonempty (String.length <$> l)) as [w1 ->] end.
    { intros Hnil%fmap_nil_inv%fmap_nil_inv.
      assert (r ∈ filter (λ r, has_methods r = true) (sorted endpoint rules))
        as Hin by (apply list_elem_of_filter; split; [done|by apply elem_of_sorted]).
      rewrite Hnil in Hin. by apply elem_of_nil in Hin. }
    by eexists.
Qed.

Lemma list_routes_txt_outcome_witness :
  _list_routes_txt [socket_rule] = Raise (OtherException "ValueError")
  ∧ ∃ txt, _list_routes_txt [socket_rule; static_rule] = Return txt.
Proof.
  split.
  - apply (proj1 (proj2 (list_routes_txt_outcome [socket_rule]))).
    + discriminate.
    + intros r ->%list_elem_of_singleton. reflexivity.
  - apply (proj2 (proj2 (list_routes_txt_outcome [socket_rule; static_rule]))
             static_rule).
    + apply list_elem_of_further, list_elem_of_here.
    + by vm_compute.
Defined.

End RoutesFacts.

(** * Plugin objects and the start of the manager *)

Module ServerFacts.
Import Routes Server.

(** X19: the output of a plugin is handed over once: [get_output] returns
    what the plugin has written and leaves an empty output, so that a
    second reading returns the empty dictionary; the bot of the plugin and
    the objects of the other plugins are untouched, and so is the
    manager. *)
Theorem get_output_drains p s :
  ∃ s1 s2, get_output p s = (Return (output (objects s !!! ident p)), s1)
    ∧ get_output p s1 = (Return ∅, s2)
    ∧ bot (objects s1 !!! ident p) = bot (objects s !!! ident p)
    ∧ (∀ i, i ≠ ident p → objects s1 !!! i = objects s !!! i)
    ∧ manager s1 = manager s.
Proof.
  unfold get_output. eexists _, _. split; [done|].
  cbn [set_objects objects manager].
  rewrite !lookup_total_insert_eq. cbn [output bot].
  repeat split; try done.
  intros i Hi. by rewrite lookup_total_insert_ne.
Qed.

Section start_facts.

#[local] Set Default Proof Using "Type".

Context (_wechaty : nat) (endpoint : string * Z).
Context (init_plugin : WechatyPlugin → nat → option exn).
Context (blueprint : WechatyPlugin → list Rule → option exn * list Rule).

#[local] Abbreviation init_items := (init_items _wechaty init_plugin blueprint).
#[local] Abbreviation bound := (bound _wechaty).
#[local] Abbreviation start := (start _wechaty endpoint init_plugin blueprint).

Lemma init_items_cons n p items s :
  init_items ((n, p) :: items) s =
    match init_plugin p _wechaty with
    | Some e => (Raise e, bound p n s)
    | None =>
        match blueprint p (url_map s) with
        | (Some e, rules) => (Raise e, set_url_map rules (bound p n s))
        | (None, rules) => init_items items (set_url_map rules (bound p n s))
        end
    end.
Proof.
  cbn [Server.init_items]. unfold bindS, lift, log_info, modify, set_bot,
    await_init_plugin, await_blueprint, retS, raiseS, bound.
  cbn. destruct (init_plugin p _wechaty); [done|]. cbn.
  by destruct (blueprint p (url_map s)) as [[e|] rules].
Qed.

(** The loop never touches the dictionaries, the options, the tasks or
    the output of any plugin; and a bot once bound stays bound. *)
Lemma init_items_frame items s :
  let s' := (init_items items s).2 in
  _plugins (manager s') = _plugins (manager s)
  ∧ _plugin_status (manager s') = _plugin_status (manager s)
  ∧ heap (manager s') = heap (manager s)
  ∧ tasks s' = tasks s
  ∧ (∀ i, output (objects s' !!! i) = output (objects s !!! i))
  ∧ (∀ i, bot (objects s !!! i) = Some _wechaty →
          bot (objects s' !!! i) = Some _wechaty)
  ∧ (∀ i, i ∉ ident <$> items.*2 → objects s' !!! i = objects s !!! i).
Proof.
  cbn zeta. revert s. induction items as [|[n p] items IH]; intros s; [done|].
  assert (Hb : ∀ rules, let s1 := set_url_map rules (bound p n s) in
            _plugins (manager s1) = _plugins (manager s)
            ∧ _plugin_status (manager s1) = _plugin_status (manager s)
            ∧ heap (manager s1) = heap (manager s)
            ∧ tasks s1 = tasks s
            ∧ (∀ i, output (objects s1 !!! i) = output (objects s !!! i))
            ∧ (∀ i, bot (objects s !!! i) = Some _wechaty →
                    bot (objects s1 !!! i) = Some _wechaty)
            ∧ (∀ i, i ≠ ident p → objects s1 !!! i = objects s !!! i)).
  { intros rules. cbn. repeat split; try done.
    - intros i. destruct (decide (i = ident p)) as [->|Hi].
      + by rewrite lookup_total_insert_eq.
      + by rewrite lookup_total_insert_ne.
    - intros i Hi. destruct (decide (i = ident p)) as [->|Hne].
      + by rewrite lookup_total_insert_eq.
      + by rewrite lookup_total_insert_ne.
    - intros i Hi. by rewrite lookup_total_insert_ne. }
  rewrite init_items_cons.
  destruct (init_plugin p _wechaty) as [e|].
  { destruct (Hb (url_map s)) as (? & ? & ? & ? & ? & ? & Ho). cbn [snd].
    repeat split; try done.
    intros i Hi. apply Ho. csimpl in Hi. by apply not_elem_of_cons in Hi as [? _]. }
  destruct (blueprint p (url_map s)) as [[e|] rules];
    destruct (Hb rules) as (Hp & Hst & Hh & Ht & Hout & Hbot & Ho).
  - cbn [snd]. repeat split; try done.
    intros i Hi. apply Ho. csimpl in Hi. by apply not_elem_of_cons in Hi as [? _].
  - destruct (IH (set_url_map rules (bound p n s)))
      as (Hp' & Hst' & Hh' & Ht' & Hout' & Hbot' & Ho').
    do 4 (split; [congruence|]). split; [|split].
    + intros i. etransitivity; [apply Hout'|apply Hout].
    + intros i Hi. by apply Hbot', Hbot.
    + intros i Hi. csimpl in Hi. apply not_elem_of_cons in Hi as [Hne Hi].
      rewrite Ho' by done. by apply Ho.
Qed.

Lemma init_items_returns items s :
  (∀ k p, (k, p) ∈ items → init_plugin p _wechaty = None) →
  (∀ k p rules, (k, p) ∈ items → (blueprint p rules).1 = None) →
  (init_items items s).1 = Return tt
  ∧ ∀ k p, (k, p) ∈ items →
      bot (objects (init_items items s).2 !!! ident p) = Some _wechaty.
Proof.
  revert s. induction items as [|[n q] items IH]; intros s Hi Hb.
  - split; [done|]. intros k p Hin. by apply elem_of_nil in Hin.
  - rewrite init_items_cons, (Hi n q) by left.
    pose proof (Hb n q (url_map s) ltac:(left)) as Hq.
    destruct (blueprint q (url_map s)) as [r rules]. cbn in Hq. subst r.
    set (s1 := set_url_map rules (bound q n s)).
    destruct (IH s1) as [Hr Hbot].
    { intros k p Hin. apply (Hi k). by right. }
    { intros k p rs Hin. apply (Hb k). by right. }
    split; [done|]. intros k p [[= -> ->]|Hin]%elem_of_cons.
    + apply (init_items_frame items s1). subst s1. cbn.
      by rewrite lookup_total_insert_eq.
    + by apply (Hbot k).
Qed.

(** X20: when the hooks of the registered plugins return, [start] binds
    the bot to every registered plugin, stopped ones as well as running
    ones, hands one task for the endpoint to the event loop and touches
    neither dictionary; it then returns, or raises what the listing of
    the routes raises, the task being created already. *)
Theorem start_binds_every_plugin s :
  (∀ k p, (k, p) ∈ _plugins (manager s) → init_plugin p _wechaty = None) →
  (∀ k p rules, (k, p) ∈ _plugins (manager s) → (blueprint p rules).1 = None) →
  ∃ r s', start s = (r, s')
    ∧ (∀ k p, (k, p) ∈ _plugins (manager s) →
         bot (objects s' !!! ident p) = Some _wechaty)
    ∧ _plugins (manager s') = _plugins (manager s)
    ∧ _plugin_status (manager s') = _plugin_status (manager s)
    ∧ tasks s' = tasks s ++ [endpoint]
    ∧ r = match _list_routes_txt (url_map s') with
          | Return _ => Return tt
          | Raise e => Raise e
          end.
Proof.
  intros Hi Hb. unfold Server.start.
  unfold bindS at 1. cbn [lift log_info modify].
  set (s0 := set_manager _ s). unfold bindS at 1. cbn [lift gets].
  change (set_manager (manager s0) s0) with s0.
  unfold bindS at 1.
  destruct (init_items_returns (_plugins (manager s0)) s0) as [Hr Hbot];
    [exact Hi|exact Hb|].
  destruct (init_items_frame (_plugins (manager s0)) s0)
    as (Hp & Hst & _ & Ht & _ & _ & _).
  destruct (init_items (_plugins (manager s0)) s0) as [r s1].
  cbn [fst snd] in *. subst r.
  unfold bindS, lift, log_info, modify. cbn.
  destruct (_list_routes_txt (url_map s1)) as [txt|e] eqn:Hroutes; cbn;
    eexists _, _; (split; [reflexivity|]); cbn; rewrite ?Hroutes, ?Ht;
    destruct endpoint; repeat split; try done.
Qed.

(** X21: when a hook of a registered plugin raises, the hooks of the
    plugins registered before it having returned, [start] raises that
    exception at once: the plugin itself has its bot, no task is created
    for the web service, and no plugin registered after it is bound or
    initialised. *)
Theorem start_stops_at_raising_hook pre n p post e s :
  _plugins (manager s) = pre ++ (n, p) :: post →
  (∀ k q, (k, q) ∈ pre → init_plugin q _wechaty = None) →
  (∀ k q rules, (k, q) ∈ pre → (blueprint q rules).1 = None) →
  (init_plugin p _wechaty = Some e
   ∨ init_plugin p _wechaty = None ∧ ∀ rules, (blueprint p rules).1 = Some e) →
  ∃ s', start s = (Raise e, s')
    ∧ bot (objects s' !!! ident p) = Some _wechaty
    ∧ tasks s' = tasks s
    ∧ ∀ i, i ∉ ident <$> (pre ++ [(n, p)]).*2 →
           objects s' !!! i = objects s !!! i.
Proof.
  intros Hitems Hi Hb Hp. unfold Server.start.
  unfold bindS at 1. cbn [lift log_info modify].
  set (s0 := set_manager _ s). unfold bindS at 1. cbn [lift gets].
  change (set_manager (manager s0) s0) with s0.
  unfold bindS at 1.
  change (_plugins (manager s0)) with (_plugins (manager s)). rewrite Hitems.
  assert (Hgen : ∀ s0, ∃ s', init_items (pre ++ (n, p) :: post) s0 = (Raise e, s')
            ∧ bot (objects s' !!! ident p) = Some _wechaty
            ∧ tasks s' = tasks s0
            ∧ ∀ i, i ∉ ident <$> (pre ++ [(n, p)]).*2 →
                   objects s' !!! i = objects s0 !!! i).
  { clear s s0 Hitems. induction pre as [|[k q] pre IH]; intros s0.
    - cbn [app]. rewrite init_items_cons.
      destruct Hp as [->|[-> Hbp]].
      + eexists. split; [done|]. cbn. rewrite lookup_total_insert_eq.
        repeat split; try done. intros i Hnot. csimpl in Hnot.
        apply not_elem_of_cons in Hnot as [? _]. by rewrite lookup_total_insert_ne.
      + specialize (Hbp (url_map s0)).
        destruct (blueprint p (url_map s0)) as [r rules]. cbn in Hbp. subst r.
        eexists. split; [done|]. cbn. rewrite lookup_total_insert_eq.
        repeat split; try done. intros i Hnot. csimpl in Hnot.
        apply not_elem_of_cons in Hnot as [? _]. by rewrite lookup_total_insert_ne.
    - cbn [app]. rewrite init_items_cons, (Hi k q) by left.
      pose proof (Hb k q (url_map s0) ltac:(left)) as Hq.
      destruct (blueprint q (url_map s0)) as [r rules]. cbn in Hq. subst r.
      destruct (IH ltac:(intros; eapply Hi; by right)
                   ltac:(intros; eapply Hb; by right)
                   (set_url_map rules (bound q k s0)))
        as (s' & -> & Hbot & Ht & Ho).
      eexists. split; [done|]. split; [done|]. split; [done|].
      intros i Hnot. csimpl in Hnot. apply not_elem_of_cons in Hnot as [Hne Hnot].
      rewrite Ho by done. cbn. by rewrite lookup_total_insert_ne. }
  destruct (Hgen s0) as (s' & -> & ? & ? & ?). by eexists.
Qed.

End start_facts.

Lemma start_binds_every_plugin_witness :
  ∃ r s', Server.start 0 ("0.0.0.0", 5000%Z) base_init_plugin base_blueprint
            two_plugins_server = (r, s')
    ∧ (∀ k p, (k, p) ∈ _plugins (manager two_plugins_server) →
         bot (objects s' !!! ident p) = Some 0)
    ∧ _plugins (manager s') = _plugins (manager two_plugins_server)
    ∧ _plugin_status (manager s') = _plugin_status (manager two_plugins_server)
    ∧ tasks s' = tasks two_plugins_server ++ [("0.0.0.0", 5000%Z)]
    ∧ r = match _list_routes_txt (url_map s') with
          | Return _ => Return tt
          | Raise e => Raise e
          end.
Proof.
  apply (start_binds_every_plugin 0 ("0.0.0.0", 5000%Z)
           base_init_plugin base_blueprint two_plugins_server).
  - reflexivity.
  - reflexivity.
Defined.

Lemma start_stops_at_raising_hook_witness :
  ∃ s', Server.start 0 ("0.0.0.0", 5000%Z) daily_init_raises base_blueprint
          two_plugins_server = (Raise (OtherException "boom"), s')
    ∧ bot (objects s' !!! ident daily) = Some 0
    ∧ tasks s' = tasks two_plugins_server
    ∧ ∀ i, i ∉ ident <$> ([("DingDongPlugin", ding_dong)]
                           ++ [("DailyPlugin", daily)]).*2 →
           objects s' !!! i = objects two_plugins_server !!! i.
Proof.
  apply (start_stops_at_raising_hook 0 ("0.0.0.0", 5000%Z)
           daily_init_raises base_blueprint
           [("DingDongPlugin", ding_dong)] "DailyPlugin" daily []).
  - by vm_compute.
  - intros k q [= -> ->]%list_elem_of_singleton. reflexivity.
  - reflexivity.
  - left. reflexivity.
Defined.

End ServerFacts.

(** * The fake puppet *)

Module FakePuppetFacts.
Import FakePuppet.

Lemma dict_get_setitem {K V} `{EqDecision K} (k k' : K) (v : V) d :
  dict_get k' (dict_setitem k v d)
  = if decide (k = k') then Some v else dict_get k' d.
Proof.
  induction d as [|[k0 v0] d IH]; cbn.
  - by destruct (decide (k = k')).
  - destruct (decide (k0 = k)) as [->|Hne]; cbn.
    + by destruct (decide (k = k')).
    + destruct (decide (k0 = k')) as [->|?]; [by rewrite decide_False|done].
Qed.

Lemma dict_setitem_new {K V} `{EqDecision K} (k : K) (v : V) d :
  dict_get k d = None → dict_setitem k v d = d ++ [(k, v)].
Proof.
  induction d as [|[k0 v0] d IH]; cbn; [done|].
  destruct (decide (k0 = k)); [done|]. intros Hd. by rewrite IH.
Qed.

Lemma dict_setitem_filter_other {K V} `{EqDecision K} (P : K * V → Prop)
    `{∀ x, Decision (P x)} (k : K) (v : V) d :
  (∀ v', ¬ P (k, v')) → filter P (dict_setitem k v d) = filter P d.
Proof.
  intros HP. induction d as [|[k0 v0] d IH]; cbn [dict_setitem].
  - by rewrite filter_cons, decide_False.
  - destruct (decide (k0 = k)) as [->|Hne].
    + by rewrite !filter_cons, !decide_False.
    + by rewrite !filter_cons, IH.
Qed.

(** X22: [room_members] lists the members of the room asked for, in the
    order they were added: adding a member to another room does not
    change the list, and adding a member the room has not yet puts the
    member at the end of it. *)
Theorem room_members_by_room room room' p s :
  (room' ≠ room →
   room_members room (add_room_member room' p s) = room_members room s)
  ∧ (room_member_payload room (id p) s = None →
     room_members room (add_room_member room p s) = room_members room s ++ [p]).
Proof.
  unfold room_members, room_member_payload, add_room_member.
  cbn [fake_room_members]. split.
  - intros Hne. f_equal. apply dict_setitem_filter_other. cbn. intros _. done.
  - intros Hnew. rewrite dict_setitem_new by done.
    rewrite filter_app, fmap_app. f_equal.
    by rewrite filter_cons, decide_True.
Qed.

(** X23: what is added to the fake puppet is what the lookups return: a
    room member just added is found under its room and id, the other
    members are found as before; a message just added is found under its
    id; and on a new puppet a room member that is not known is [None],
    while a message, a room or a contact that is not known is a
    [KeyError]. *)
Theorem lookups_return_what_was_added room p s :
  room_member_payload room (id p) (add_room_member room p s) = Some p
  ∧ (∀ room' member, (room', member) ≠ (room, id p) →
       room_member_payload room' member (add_room_member room p s)
       = room_member_payload room' member s)
  ∧ (message_payload (id p) (add_message p s)).1 = Return p
  ∧ (∀ i, room_member_payload room i new = None
          ∧ (message_payload i new).1 = Raise (KeyError i)
          ∧ room_payload i new = Raise (KeyError i)
          ∧ contact_payload i new = Raise (KeyError i)).
Proof.
  unfold room_member_payload, add_room_member, message_payload, add_message,
    room_payload, contact_payload.
  cbn [fake_room_members fake_messages fst]. rewrite !dict_get_setitem.
  rewrite !decide_True by done. split; [done|]. split; [|done].
  intros room' member Hne. rewrite dict_get_setitem.
  by rewrite decide_False.
Qed.

Lemma room_members_by_room_witness :
  room_members "room1" (add_room_member "room2" wechaty_user new)
    = room_members "room1" new
  ∧ room_members "room1" (add_room_member "room1" wechaty_user new)
    = room_members "room1" new ++ [wechaty_user].
Proof.
  destruct (room_members_by_room "room1" "room2" wechaty_user new) as [Hother _].
  destruct (room_members_by_room "room1" "room1" wechaty_user new) as [_ Hnew].
  split; [apply Hother; discriminate|apply Hnew; reflexivity].
Defined.

Lemma lookups_return_what_was_added_witness :
  room_member_payload "room2" "wechaty_user"
    (add_room_member "room1" wechaty_user new)
  = room_member_payload "room2" "wechaty_user" new.
Proof.
  apply (proj1 (proj2 (lookups_return_what_was_added "room1" wechaty_user new))).
  discriminate.
Defined.

End FakePuppetFacts.
